(** * Sub-transaction barrier of dtmcli (barrier.go)

    A shallow embedding of [src/dtmcli/barrier.go]: the request parser
    [TransInfoFromReq], the conditional insert [insertBarrier] and the
    barrier itself, [ThroughBarrierCall], written as Go-like monadic code
    over an explicit model of the database the barrier talks to. *)

From Stdlib Require Import ZArith String List.
From stdpp Require Import base strings gmap list.
Import ListNotations.
Local Open Scope string_scope.
Local Open Scope list_scope.
Local Open Scope Z_scope.

(** ** Go values *)

(** Go's [error].  [sql.ErrNoRows] and [sql.ErrTxDone] are the two sentinel
    values of database/sql that matter here; every other error (a driver
    failure, the value built by [fmt.Errorf], a callback's own error) is
    [NewError] with its message. *)
Inductive error :=
| ErrNoRows
| ErrTxDone
| NewError (msg : string).

(** JSON-shaped data, the business results a callback hands back. *)
#[local] Unset Elimination Schemes.
Inductive json :=
| JNull
| JBool (b : bool)
| JNum (n : Z)
| JStr (s : string)
| JArr (items : list json)
| JObj (fields : list (string * json)).
#[local] Set Elimination Schemes.

(** Go's [interface{}] as far as the barrier produces or forwards it: the
    nil interface, a [common.MS] (a [map[string]string]), an [error] stored
    in an interface, or some business value. *)
Inductive Any :=
| Nil
| MS (m : gmap string string)
| ErrorValue (e : error)
| Value (v : json).

(** Conversion of an [error] result to [interface{}]: the nil error becomes
    the nil interface. *)
Definition Any_of_error (e : option error) : Any :=
  match e with
  | None => Nil
  | Some e => ErrorValue e
  end.

(** The two synthetic results, [common.MS] maps with the one key
    [dtm_result]. *)
Definition SUCCESS : Any := MS {[ "dtm_result" := "SUCCESS" ]}.
Definition FAILURE : Any := MS {[ "dtm_result" := "FAILURE" ]}.

(** ** The database *)

(** One row of [dtm_barrier.barrier]; [result] is the nullable column. *)
Record BarrierRow := mkRow {
  row_trans_type : string;
  row_gid : string;
  row_branch_id : string;
  row_branch_type : string;
  row_reason : string;
  row_result : option string
}.

(** The statements the barrier sends, with their bound arguments. *)
Inductive Stmt :=
| InsertIgnore (trans_type gid branch_id branch_type reason : string)
| UpdateResult (sval trans_type gid branch_id branch_type : string).

Inductive QueryStmt :=
| SelectResult (trans_type gid branch_id branch_type reason : string).

(** Calls that reach the database or the business code, in the order they
    are made. *)
Inductive Event :=
| EvBeginTx
| EvExec (s : Stmt)
| EvQueryRow (q : QueryStmt)
| EvCommit
| EvRollback
| EvBusiCall.

(** Committed business tables, reduced to a key-value table. *)
Abbreviation BusiState := (gmap string Z).

(** The world the barrier runs in.
    - [barrier]: committed rows of [dtm_barrier.barrier];
    - [busi]: committed business tables;
    - [txn]: the working copy of the barrier table inside the open
      transaction, [None] when no transaction is open;
    - [faults]: what the store will answer to the next calls of [BeginTx],
      [Exec] and [QueryRow]: [Some e] makes that call fail with [e], [None]
      (or an exhausted list) lets it through;
    - [trace]: the calls made so far. *)
Record World := mkWorld {
  barrier : list BarrierRow;
  busi : BusiState;
  txn : option (list BarrierRow);
  faults : list (option error);
  trace : list Event
}.

Definition set_busi (b : BusiState) (w : World) : World :=
  mkWorld (barrier w) b (txn w) (faults w) (trace w).
Definition set_txn (t : option (list BarrierRow)) (w : World) : World :=
  mkWorld (barrier w) (busi w) t (faults w) (trace w).
Definition set_faults (f : list (option error)) (w : World) : World :=
  mkWorld (barrier w) (busi w) (txn w) f (trace w).
Definition emit (e : Event) (w : World) : World :=
  mkWorld (barrier w) (busi w) (txn w) (faults w) (trace w ++ [e]).

(** ** Go control flow: state, results and panics *)

Inductive Outcome (A : Type) :=
| Return (a : A)
| Panicked (x : Any).
Arguments Return {A} a.
Arguments Panicked {A} x.

Definition M (A : Type) : Type := World -> Outcome A * World.

Definition ret {A} (a : A) : M A := fun w => (Return a, w).
Definition panic {A} (x : Any) : M A := fun w => (Panicked x, w).
Definition bind {A B} (m : M A) (k : A -> M B) : M B :=
  fun w =>
    match m w with
    | (Return a, w') => k a w'
    | (Panicked x, w') => (Panicked x, w')
    end.
Definition modify (f : World -> World) : M unit := fun w => (Return tt, f w).

Declare Scope go_scope.
Delimit Scope go_scope with go.
Notation "x <- c1 ;; c2" := (bind c1 (fun x => c2))
  (at level 100, c1 at next level, right associativity) : go_scope.
Notation "'let*' pat := c1 'in' c2" := (bind c1 (fun x => match x with pat => c2 end))
  (at level 100, pat pattern, c1 at next level, right associativity) : go_scope.
Notation "c1 ;; c2" := (bind c1 (fun _ => c2))
  (at level 100, right associativity) : go_scope.
Local Open Scope go_scope.

(** [defer func() { ... recover() ... }()]: the deferred function runs when
    the body is left, sees through [recover()] whether the body panicked,
    and decides how the call ends. *)
Definition with_defer {A} (deferred : Outcome A -> M A) (body : M A) : M A :=
  fun w => let '(o, w') := body w in deferred o w'.

(** ** database/sql *)

Record sqlDB := mkDB { dsn : string }.
Record sqlTx := mkTx { tx_db : sqlDB }.
Record sqlResult := mkResult { affected : Z }.
Record NullString := mkNullString { String_ : string; Valid : bool }.

Inductive sqlRow :=
| RowErr (e : error)
| RowEmpty
| RowOf (col : option string).

(** The store's answer to the next call. *)
Definition next_fault : M (option error) :=
  fun w =>
    match faults w with
    | [] => (Return None, w)
    | f :: fs => (Return f, set_faults fs w)
    end.

(** Modelled from the spec: the unique key of the slot table, which the
    schema (not part of the sources) puts on [(gid, branch_id, branch_type)]
    and not on [reason]. *)
Definition same_slot (gid branch_id branch_type : string) (r : BarrierRow) : bool :=
  bool_decide (row_gid r = gid) && bool_decide (row_branch_id r = branch_id)
  && bool_decide (row_branch_type r = branch_type).

Definition slot_taken (gid branch_id branch_type : string) (rows : list BarrierRow) : bool :=
  existsb (same_slot gid branch_id branch_type) rows.

(** The [where] clause of the [select]: key, transaction type and reason. *)
Definition select_matches (trans_type gid branch_id branch_type reason : string)
    (r : BarrierRow) : bool :=
  bool_decide (row_trans_type r = trans_type) && same_slot gid branch_id branch_type r
  && bool_decide (row_reason r = reason).

(** The [where] clause of the [update]: key and transaction type. *)
Definition update_matches (trans_type gid branch_id branch_type : string)
    (r : BarrierRow) : bool :=
  bool_decide (row_trans_type r = trans_type) && same_slot gid branch_id branch_type r.

Definition set_result (sval : string) (r : BarrierRow) : BarrierRow :=
  mkRow (row_trans_type r) (row_gid r) (row_branch_id r) (row_branch_type r)
        (row_reason r) (Some sval).

(** What a statement does to a table, and how many rows it affects.
    [insert ignore] adds the row unless the key is taken. *)
Definition run_stmt (s : Stmt) (rows : list BarrierRow) : list BarrierRow * Z :=
  match s with
  | InsertIgnore ty g b bt reason =>
      if slot_taken g b bt rows then (rows, 0)
      else (rows ++ [mkRow ty g b bt reason None], 1)
  | UpdateResult sval ty g b bt =>
      (map (fun r => if update_matches ty g b bt r then set_result sval r else r) rows,
       Z.of_nat (length (List.filter (update_matches ty g b bt) rows)))
  end.

Definition run_query (q : QueryStmt) (rows : list BarrierRow) : sqlRow :=
  match q with
  | SelectResult ty g b bt reason =>
      match List.find (select_matches ty g b bt reason) rows with
      | Some r => RowOf (row_result r)
      | None => RowEmpty
      end
  end.

(** [db.BeginTx]: the transaction starts from the committed table. *)
Definition BeginTx (db : sqlDB) : M (sqlTx * option error) :=
  modify (emit EvBeginTx) ;;
  f <- next_fault ;;
  match f with
  | Some e => ret (mkTx db, Some e)
  | None =>
      modify (fun w => set_txn (Some (barrier w)) w) ;;
      ret (mkTx db, None)
  end.

(** [tx.Exec]. *)
Definition tx_Exec (tx : sqlTx) (s : Stmt) : M (sqlResult * option error) :=
  modify (emit (EvExec s)) ;;
  f <- next_fault ;;
  match f with
  | Some e => ret (mkResult 0, Some e)
  | None =>
      fun w =>
        match txn w with
        | None => (Return (mkResult 0, Some ErrTxDone), w)
        | Some rows =>
            let '(rows', n) := run_stmt s rows in
            (Return (mkResult n, None), set_txn (Some rows') w)
        end
  end.

(** [tx.QueryRow]: errors are deferred until [Scan]. *)
Definition tx_QueryRow (tx : sqlTx) (q : QueryStmt) : M sqlRow :=
  modify (emit (EvQueryRow q)) ;;
  f <- next_fault ;;
  match f with
  | Some e => ret (RowErr e)
  | None =>
      fun w =>
        match txn w with
        | None => (Return (RowErr ErrTxDone), w)
        | Some rows => (Return (run_query q rows), w)
        end
  end.

(** [row.Scan(&result)] for a [sql.NullString] destination. *)
Definition Scan (row : sqlRow) : NullString * option error :=
  match row with
  | RowErr e => (mkNullString "" false, Some e)
  | RowEmpty => (mkNullString "" false, Some ErrNoRows)
  | RowOf None => (mkNullString "" false, None)
  | RowOf (Some s) => (mkNullString s true, None)
  end.

(** [res.RowsAffected()]. *)
Definition RowsAffected (r : sqlResult) : Z * option error := (affected r, None).

(** [tx.Commit] publishes the working copy, [tx.Rollback] drops it. *)
Definition tx_Commit (tx : sqlTx) : M unit :=
  modify (emit EvCommit) ;;
  modify (fun w =>
            match txn w with
            | Some rows => mkWorld rows (busi w) None (faults w) (trace w)
            | None => w
            end).

Definition tx_Rollback (tx : sqlTx) : M unit :=
  modify (emit EvRollback) ;;
  modify (set_txn None).

(** [logrus.Printf] leaves no mark on the database. *)
Definition logrus_Printf (msg : string) : M unit := ret tt.

(** ** barrier.go *)

Record TransInfo := mkTransInfo {
  TransType : string;
  Gid : string;
  BranchID : string;
  BranchType : string
}.

(** The [String] method of [TransInfo]. *)
Definition TransInfo_String (t : TransInfo) : string :=
  "transInfo: " +:+ TransType t +:+ " " +:+ Gid t +:+ " " +:+ BranchID t +:+ " " +:+ BranchType t.

(** The query string of a [gin.Context]: [c.Query(key)] is the first value
    of the key, or the empty string when the key is absent. *)
Record Context := mkContext { queryCache : gmap string (list string) }.

Definition Query (c : Context) (key : string) : string :=
  match queryCache c !! key with
  | Some (v :: _) => v
  | _ => ""
  end.

Definition fmt_Errorf (msg : string) : error := NewError msg.

Definition TransInfoFromReq (c : Context) : M TransInfo :=
  let ti := mkTransInfo (Query c "trans_type") (Query c "gid")
                        (Query c "branch_id") (Query c "branch_type") in
  if bool_decide (TransType ti = "") || bool_decide (Gid ti = "")
     || bool_decide (BranchID ti = "") || bool_decide (BranchType ti = "")
  then panic (ErrorValue (fmt_Errorf ("invlid trans info: " +:+ TransInfo_String ti)))
  else ret ti.

(** [BusiFunc]: the callback receives the [sql.DB] handle.  Statements
    sent through that handle run on a connection of the pool, outside any
    transaction the caller holds, so the callback acts on the committed
    business tables; it returns its two results or panics. *)
Definition BusiFunc : Type :=
  sqlDB -> BusiState -> Outcome (Any * option error) * BusiState.

Definition call_busi (busiCall : BusiFunc) (db : sqlDB) : M (Any * option error) :=
  modify (emit EvBusiCall) ;;
  fun w => let '(o, b) := busiCall db (busi w) in (o, set_busi b w).

(** [BarrierModel.TableName] *)
Definition TableName : string := "dtm_barrier.barrier".

Definition logExec (tx : sqlTx) (s : Stmt) : M (sqlResult * option error) :=
  logrus_Printf "executing: " ;;
  tx_Exec tx s.

Definition logQueryRow (tx : sqlTx) (q : QueryStmt) : M sqlRow :=
  logrus_Printf "querying: " ;;
  tx_QueryRow tx q.

Definition insertBarrier (tx : sqlTx) (transType gid branchID branchType reason : string)
    : M (Z * option error) :=
  if bool_decide (branchType = "") then ret (0, None)
  else
    let* (res, err) := logExec tx (InsertIgnore transType gid branchID branchType reason) in
    match err with
    | Some e => ret (0, Some e)
    | None => ret (RowsAffected res)
    end.

(** [json.Unmarshal(data, &target)] and [common.MustMarshalString(v)].
    [Unmarshal] gets the bytes and the current content of the target and
    yields the new content and its error result.  [MustMarshalString] is
    not part of the sources; it is taken as a parameter: having a string as
    its only result, it yields the string or panics. *)
Class JSONCodec := {
  json_Unmarshal : string -> Any -> Any * option error;
  MustMarshalString : Any -> Outcome string
}.

(** The literal [map[string]string{"cancel": "try", "compensate": "action"}]. *)
Definition originTypes : gmap string string :=
  {[ "cancel" := "try"; "compensate" := "action" ]}.

(** Indexing a Go map: the zero value when the key is absent. *)
Definition originTypeOf (branchType : string) : string :=
  default "" (originTypes !! branchType).

Section Barrier.
Context `{codec : JSONCodec}.

(** The deferred function of [ThroughBarrierCall]. *)
Definition deferred (tx : sqlTx) (o : Outcome (Any * option error)) : M (Any * option error) :=
  logrus_Printf "result is %v error is %v" ;;
  match o with
  | Panicked x => tx_Rollback tx ;; panic x
  | Return (res, Some e) => tx_Rollback tx ;; ret (res, Some e)
  | Return (res, None) => tx_Commit tx ;; ret (res, None)
  end.

(** Lines 106-135 of [ThroughBarrierCall]: what the call does once both
    claims have been made, from their two counts and the error of the
    second. *)
Definition barrier_decision (db : sqlDB) (tx : sqlTx) (ti : TransInfo) (busiCall : BusiFunc)
    (originAffected currentAffected : Z) (rerr : option error) : M (Any * option error) :=
  if (bool_decide (BranchType ti = "cancel") || bool_decide (BranchType ti = "compensate"))
     && (0 <? originAffected)
  then ret (SUCCESS, rerr)
  else if currentAffected =? 0 then
    row <- logQueryRow tx (SelectResult (TransType ti) (Gid ti) (BranchID ti)
                                        (BranchType ti) (BranchType ti)) ;;
    let '(result, err) := Scan row in
    match err with
    | Some ErrNoRows => ret (FAILURE, rerr)
    | Some e => ret (Nil, Some e)
    | None =>
        if Valid result then
          (* res = json.Unmarshal([]byte(result.String), &res) *)
          let '(res, uerr) := json_Unmarshal (String_ result) Nil in
          let res := Any_of_error uerr in
          ret (res, rerr)
        else ret (SUCCESS, rerr)
    end
  else
    let* (res, rerr) := call_busi busiCall db in
    match rerr with
    | None =>
        sval <- (fun w => (MustMarshalString res, w)) ;;
        let* (_, rerr) := logExec tx (UpdateResult sval (TransType ti) (Gid ti)
                                                  (BranchID ti) (BranchType ti)) in
        ret (res, rerr)
    | Some _ => ret (res, rerr)
    end.

(** Lines 98-135: the statements of [ThroughBarrierCall] that follow the
    [defer]: the two claims, then the decision. *)
Definition barrier_steps (db : sqlDB) (tx : sqlTx) (transInfo : TransInfo)
    (busiCall : BusiFunc) : M (Any * option error) :=
  let ti := transInfo in
  let originType := originTypeOf (BranchType ti) in
  let* (originAffected, _) :=
    insertBarrier tx (TransType ti) (Gid ti) (BranchID ti) originType (BranchType ti) in
  let* (currentAffected, rerr) :=
    insertBarrier tx (TransType ti) (Gid ti) (BranchID ti) (BranchType ti) (BranchType ti) in
  logrus_Printf "originAffected: %d currentAffected: %d" ;;
  barrier_decision db tx ti busiCall originAffected currentAffected rerr.

Definition ThroughBarrierCall (db : sqlDB) (transInfo : TransInfo) (busiCall : BusiFunc)
    : M (Any * option error) :=
  let* (tx, rerr) := BeginTx db in
  match rerr with
  | Some _ => ret (Nil, rerr)
  | None => with_defer (deferred tx) (barrier_steps db tx transInfo busiCall)
  end.

(** The outcome of the third arm, from the outcome [ob] of the callback. *)
Definition arrival_outcome (ob o : Outcome (Any * option error)) : Prop :=
  match ob with
  | Panicked x => o = Panicked x
  | Return (res, Some e) => o = Return (res, Some e)
  | Return (res, None) =>
      match MustMarshalString res with
      | Panicked x => o = Panicked x
      | Return _ => exists e, o = Return (res, e)
      end
  end.

End Barrier.

(** The two claims and the lookup of the barrier for [ti], as
    [ThroughBarrierCall] makes them. *)
Definition claim_origin (ti : TransInfo) (tx : sqlTx) : M (Z * option error) :=
  insertBarrier tx (TransType ti) (Gid ti) (BranchID ti)
                (originTypeOf (BranchType ti)) (BranchType ti).
Definition claim_own (ti : TransInfo) (tx : sqlTx) : M (Z * option error) :=
  insertBarrier tx (TransType ti) (Gid ti) (BranchID ti) (BranchType ti) (BranchType ti).
Definition lookup_own (ti : TransInfo) (tx : sqlTx) : M sqlRow :=
  logQueryRow tx (SelectResult (TransType ti) (Gid ti) (BranchID ti) (BranchType ti) (BranchType ti)).

(** The branch types whose first claim is a poison claim. *)
Definition compensating (branchType : string) : bool :=
  bool_decide (branchType = "cancel") || bool_decide (branchType = "compensate").

(** What a claim does on a store that answers: the table it leaves and
    the count it returns. *)
Definition claim_rows (ty g b bt reason : string) (rows : list BarrierRow)
    : list BarrierRow * Z :=
  if bool_decide (bt = "") then (rows, 0) else run_stmt (InsertIgnore ty g b bt reason) rows.

(** The two counts of [ThroughBarrierCall] for [ti] when the transaction
    starts from the table [rows] and the store answers every call. *)
Definition healthy_counts (ti : TransInfo) (rows : list BarrierRow) : Z * Z :=
  let '(rows1, n1) :=
    claim_rows (TransType ti) (Gid ti) (BranchID ti) (originTypeOf (BranchType ti))
               (BranchType ti) rows in
  let '(_, n2) :=
    claim_rows (TransType ti) (Gid ti) (BranchID ti) (BranchType ti) (BranchType ti) rows1 in
  (n1, n2).

(** ** Sample data *)

Definition db0 : sqlDB := mkDB "dtm_busi".

(** A codec for text results: a stored payload decodes to itself, a text
    result encodes to itself, and any other value has no encoding. *)
Definition text_codec : JSONCodec :=
  {| json_Unmarshal := fun data _ => (Value (JStr data), None);
     MustMarshalString := fun v =>
       match v with
       | Value (JStr s) => Return s
       | _ => Panicked (ErrorValue (NewError "json: unsupported value"))
       end |}.

Definition try1 : TransInfo := mkTransInfo "tcc" "g1" "b1" "try".
Definition confirm1 : TransInfo := mkTransInfo "tcc" "g1" "b1" "confirm".
Definition cancel1 : TransInfo := mkTransInfo "tcc" "g1" "b1" "cancel".

(** Callbacks: one that books an amount and returns a text result, one
    that books it and returns a number, one that books it and then fails. *)
Definition busi_amount : BusiFunc :=
  fun _ b => (Return (Value (JStr "{amount:10}"), None), <["amount" := 10]> b).
Definition busi_refuse : BusiFunc :=
  fun _ b => (Return (Nil, Some (NewError "insufficient balance")), <["amount" := 10]> b).

(** Worlds: an empty database; one where [try1] has completed; one where
    [cancel1] came first; a store that refuses the transaction; a store
    that fails on the first statement and answers afterwards. *)
Definition empty_world : World := mkWorld [] ∅ None [] [].
Definition replay_world : World :=
  mkWorld [mkRow "tcc" "g1" "b1" "try" "try" (Some "{amount:10}")] ∅ None [] [].
Definition cancelled_world : World :=
  mkWorld [mkRow "tcc" "g1" "b1" "try" "cancel" None;
           mkRow "tcc" "g1" "b1" "cancel" "cancel" None] ∅ None [] [].
Definition flaky_world : World :=
  mkWorld [] ∅ None [None; Some (NewError "Error 1205: Lock wait timeout exceeded")] [].

(** More worlds: an open transaction on an empty table; a store that
    fails on the third call it gets, over a table where [try1] has
    completed and over an empty one. *)
Definition open_world : World := mkWorld [] ∅ (Some []) [] [].
Definition lookup_down_world : World :=
  mkWorld [mkRow "tcc" "g1" "b1" "try" "try" (Some "{amount:10}")] ∅ None
          [None; None; Some (NewError "driver: bad connection")] [].
Definition write_down_world : World :=
  mkWorld [] ∅ None [None; None; Some (NewError "driver: bad connection")] [].

Definition full_request : Context :=
  mkContext {[ "trans_type" := ["tcc"]; "gid" := ["g1"];
               "branch_id" := ["b1"]; "branch_type" := ["try"] ]}.
Definition request_without_gid : Context :=
  mkContext {[ "trans_type" := ["tcc"]; "branch_id" := ["b1"]; "branch_type" := ["try"] ]}.

(** ** Two sentences of the specification, as they are written *)


(** The writes of the callback are covered by the rollback of the
    barrier's transaction. *)
Definition callback_in_unit {codec : JSONCodec} (db : sqlDB) (ti : TransInfo) (f : BusiFunc)
    (w : World) : Prop :=
  forall o w',
    ThroughBarrierCall db ti f w = (o, w') -> In EvRollback (trace w') -> busi w' = busi w.

(** ** Reading the trace *)

Definition is_busi_call (e : Event) : bool :=
  match e with EvBusiCall => true | _ => false end.

(** How often the business callback has been invoked. *)
Definition busi_calls (t : list Event) : nat := length (List.filter is_busi_call t).

Definition is_tx_boundary (e : Event) : bool :=
  match e with EvBeginTx | EvCommit | EvRollback => true | _ => false end.

(** [preserves R m]: whatever [m] does, the worlds before and after it are
    related by [R]. *)
Definition preserves {A} (R : World -> World -> Prop) (m : M A) : Prop :=
  forall w o w', m w = (o, w') -> R w w'.

(** No business call between [w] and [w']: the business tables are as
    they were and the callback was not invoked. *)
Definition quiet (w w' : World) : Prop :=
  busi w' = busi w /\ busi_calls (trace w') = busi_calls (trace w).

(** Between [w] and [w'] the transaction was neither opened nor closed and
    the committed barrier table was not touched. *)
Definition inside_tx (w w' : World) : Prop :=
  barrier w' = barrier w /\
  exists steps, trace w' = trace w ++ steps /\ forallb (fun e => negb (is_tx_boundary e)) steps = true.

(** The last call made to the database when [ThroughBarrierCall] leaves
    with outcome [o] and a transaction is open. *)
Definition closing (o : Outcome (Any * option error)) : Event :=
  match o with
  | Return (_, None) => EvCommit
  | _ => EvRollback
  end.

(** ** Reading the table *)

(** The row that [ThroughBarrierCall] claims for [ti] itself: slot and
    reason are both the branch type of the call. *)
Definition own_row (ti : TransInfo) (result : option string) : BarrierRow :=
  mkRow (TransType ti) (Gid ti) (BranchID ti) (BranchType ti) (BranchType ti) result.

(** Everything in a row but its result. *)
Definition row_key (r : BarrierRow) : string * string * string * string * string :=
  (row_trans_type r, row_gid r, row_branch_id r, row_branch_type r, row_reason r).

(** [rows'] has the rows of [rows], in order and with the same key and
    reason, followed by new ones; only results may differ. *)
Definition keeps_rows (rows rows' : list BarrierRow) : Prop :=
  exists extra, map row_key rows' = map row_key rows ++ extra.

(** The open transaction, if any, and the committed table only grow. *)
Definition grows (w w' : World) : Prop :=
  keeps_rows (barrier w) (barrier w') /\
  forall rows, txn w = Some rows -> exists rows', txn w' = Some rows' /\ keeps_rows rows rows'.

(** ** The request parser *)

Section Parser.
Variables (c : Context) (w : World).

Let parsed : TransInfo :=
  mkTransInfo (Query c "trans_type") (Query c "gid") (Query c "branch_id") (Query c "branch_type").

(** C8: when one of the four fields of the request is empty, parsing fails
    at once (it panics with the "invlid trans info" error) and leaves the
    world, the store included, as it was; when all four are non-empty it
    returns the context made of these four fields. *)
Theorem TransInfoFromReq_validates :
  (TransType parsed = "" \/ Gid parsed = "" \/ BranchID parsed = "" \/ BranchType parsed = "" ->
   TransInfoFromReq c w =
     (Panicked (ErrorValue (NewError ("invlid trans info: " +:+ TransInfo_String parsed))), w)) /\
  (TransType parsed <> "" -> Gid parsed <> "" -> BranchID parsed <> "" -> BranchType parsed <> "" ->
   TransInfoFromReq c w = (Return parsed, w)).
Proof.
  unfold TransInfoFromReq; fold parsed; split.
  - intros Hempty.
    assert (bool_decide (TransType parsed = "") || bool_decide (Gid parsed = "")
            || bool_decide (BranchID parsed = "") || bool_decide (BranchType parsed = "") = true) as ->.
    { rewrite !orb_true_iff, !bool_decide_eq_true. tauto. }
    reflexivity.
  - intros H1 H2 H3 H4.
    rewrite !bool_decide_eq_false_2 by assumption. reflexivity.
Qed.

End Parser.

(** ** The conditional insert *)

(** C9: a claim with an empty slot name returns count 0 and no error, and
    the world after it is the world before it: nothing was sent to the
    store. *)
Theorem insertBarrier_empty_slot (tx : sqlTx) (transType gid branchID reason : string) (w : World) :
  insertBarrier tx transType gid branchID "" reason w = (Return (0, None), w).
Proof. reflexivity. Qed.

Lemma originTypeOf_forward (branchType : string) :
  branchType <> "cancel" -> branchType <> "compensate" -> originTypeOf branchType = "".
Proof.
  intros Hc Hk. unfold originTypeOf, originTypes.
  rewrite lookup_insert_ne by congruence.
  rewrite lookup_singleton_ne by congruence.
  reflexivity.
Qed.

Lemma claim_origin_forward (tx : sqlTx) (ti : TransInfo) (w : World) :
  BranchType ti <> "cancel" -> BranchType ti <> "compensate" ->
  claim_origin ti tx w = (Return (0, None), w).
Proof.
  intros Hc Hk. unfold claim_origin. rewrite (originTypeOf_forward _ Hc Hk). reflexivity.
Qed.

(** C10: for a branch type other than "cancel" and "compensate" the origin
    slot is the empty string, and the poison claim made with it returns
    count 0 without sending anything to the store. *)
Theorem origin_claim_noop (tx : sqlTx) (ti : TransInfo) (w : World) :
  BranchType ti <> "cancel" -> BranchType ti <> "compensate" ->
  originTypeOf (BranchType ti) = "" /\
  insertBarrier tx (TransType ti) (Gid ti) (BranchID ti)
                (originTypeOf (BranchType ti)) (BranchType ti) w = (Return (0, None), w).
Proof.
  intros Hc Hk. split.
  - exact (originTypeOf_forward _ Hc Hk).
  - exact (claim_origin_forward tx ti w Hc Hk).
Qed.

(** ** Stepping through monadic code *)

Lemma bind_Return {A B} (m : M A) (k : A -> M B) (w w' : World) (a : A) :
  m w = (Return a, w') -> bind m k w = k a w'.
Proof. unfold bind; intros ->; reflexivity. Qed.

Section Preserves.
Variable R : World -> World -> Prop.
Hypothesis R_refl : forall w, R w w.
Hypothesis R_trans : forall w1 w2 w3, R w1 w2 -> R w2 w3 -> R w1 w3.

Lemma preserves_ret {A} (a : A) : preserves R (ret a).
Proof. intros w o w' [= <- <-]; apply R_refl. Qed.

Lemma preserves_panic {A} (x : Any) : preserves R (@panic A x).
Proof. intros w o w' [= <- <-]; apply R_refl. Qed.

Lemma preserves_pure {A} (o : Outcome A) : preserves R (fun w => (o, w)).
Proof. intros w o' w' [= <- <-]; apply R_refl. Qed.

Lemma preserves_bind {A B} (m : M A) (k : A -> M B) :
  preserves R m -> (forall a, preserves R (k a)) -> preserves R (bind m k).
Proof.
  intros Hm Hk w o w'. unfold bind.
  destruct (m w) as [[a|x] w1] eqn:E; intros H.
  - eapply R_trans; [eapply Hm, E | eapply Hk, H].
  - injection H as <- <-. eapply Hm, E.
Qed.

Lemma preserves_modify (f : World -> World) :
  (forall w, R w (f w)) -> preserves R (modify f).
Proof. intros Hf w o w' [= <- <-]; apply Hf. Qed.

Lemma preserves_next_fault :
  (forall w fs, R w (set_faults fs w)) -> preserves R next_fault.
Proof.
  intros Hf w o w'. unfold next_fault.
  destruct (faults w); intros [= <- <-]; [apply R_refl | apply Hf].
Qed.

End Preserves.

Lemma busi_calls_app (t1 t2 : list Event) :
  busi_calls (t1 ++ t2) = (busi_calls t1 + busi_calls t2)%nat.
Proof. unfold busi_calls. rewrite List.filter_app, length_app. reflexivity. Qed.

Lemma quiet_refl (w : World) : quiet w w.
Proof. split; reflexivity. Qed.

Lemma quiet_trans (w1 w2 w3 : World) : quiet w1 w2 -> quiet w2 w3 -> quiet w1 w3.
Proof. intros [H1 H2] [H3 H4]; split; congruence. Qed.

Lemma inside_tx_refl (w : World) : inside_tx w w.
Proof. split; [reflexivity | exists []; split; [symmetry; apply app_nil_r | reflexivity]]. Qed.

Lemma inside_tx_trans (w1 w2 w3 : World) :
  inside_tx w1 w2 -> inside_tx w2 w3 -> inside_tx w1 w3.
Proof.
  intros [Hb (s1 & H1 & F1)] [Hb' (s2 & H2 & F2)]. split; [congruence|].
  exists (s1 ++ s2). split.
  - rewrite H2, H1, app_assoc. reflexivity.
  - rewrite forallb_app, F1, F2. reflexivity.
Qed.

Lemma quiet_emit (e : Event) (w : World) : is_busi_call e = false -> quiet w (emit e w).
Proof.
  intros He; split; [reflexivity|]. simpl.
  rewrite busi_calls_app. unfold busi_calls at 2. simpl. rewrite He. simpl. lia.
Qed.

Lemma inside_tx_emit (e : Event) (w : World) :
  is_tx_boundary e = false -> inside_tx w (emit e w).
Proof.
  intros He; split; [reflexivity|]. exists [e]; split; [reflexivity|].
  simpl. rewrite He. reflexivity.
Qed.

(** Proves [preserves R m] for code built from [bind], [ret], [panic],
    [modify] and [next_fault], splitting on the matches it meets; [side]
    proves what is left. *)
Ltac frame Rrefl Rtrans side :=
  repeat first
    [ solve [side]
    | apply (preserves_bind _ Rtrans); [| intros ? ]
    | apply (preserves_ret _ Rrefl)
    | apply (preserves_panic _ Rrefl)
    | apply (preserves_pure _ Rrefl)
    | apply preserves_modify; intros ?
    | apply (preserves_next_fault _ Rrefl); intros ? ?
    | match goal with
      | |- preserves _ (match ?x with _ => _ end) => destruct x
      end ].

(** The calls of the barrier to the store, for a relation [R] that does
    not look at the fault list, at the open transaction or at the
    statements recorded in the trace. *)
Section StoreFrame.
Variable R : World -> World -> Prop.
Hypothesis R_refl : forall w, R w w.
Hypothesis R_trans : forall w1 w2 w3, R w1 w2 -> R w2 w3 -> R w1 w3.
Hypothesis R_faults : forall w fs, R w (set_faults fs w).
Hypothesis R_txn : forall w t, R w (set_txn t w).
Hypothesis R_exec : forall w s, R w (emit (EvExec s) w).
Hypothesis R_query : forall w q, R w (emit (EvQueryRow q) w).

Lemma tx_Exec_preserves tx s : preserves R (tx_Exec tx s).
Proof.
  unfold tx_Exec. frame R_refl R_trans ltac:(auto).
  intros w o w'. destruct (txn w) as [rows|].
  - destruct (run_stmt s rows). intros [= <- <-]. apply R_txn.
  - intros [= <- <-]. apply R_refl.
Qed.

Lemma tx_QueryRow_preserves tx q : preserves R (tx_QueryRow tx q).
Proof.
  unfold tx_QueryRow. frame R_refl R_trans ltac:(auto).
  intros w o w'. destruct (txn w); intros [= <- <-]; apply R_refl.
Qed.

Lemma logExec_preserves tx s : preserves R (logExec tx s).
Proof.
  unfold logExec, logrus_Printf.
  frame R_refl R_trans ltac:(apply tx_Exec_preserves).
Qed.

Lemma logQueryRow_preserves tx q : preserves R (logQueryRow tx q).
Proof.
  unfold logQueryRow, logrus_Printf.
  frame R_refl R_trans ltac:(apply tx_QueryRow_preserves).
Qed.

Lemma insertBarrier_preserves tx ty g b bt reason :
  preserves R (insertBarrier tx ty g b bt reason).
Proof.
  unfold insertBarrier. destruct (bool_decide (bt = ""));
    frame R_refl R_trans ltac:(apply logExec_preserves).
Qed.

End StoreFrame.

Lemma set_txn_quiet w t : quiet w (set_txn t w).
Proof. split; reflexivity. Qed.
Lemma set_faults_quiet w f : quiet w (set_faults f w).
Proof. split; reflexivity. Qed.
Lemma set_txn_inside w t : inside_tx w (set_txn t w).
Proof. apply (inside_tx_refl w). Qed.
Lemma set_faults_inside w f : inside_tx w (set_faults f w).
Proof. apply (inside_tx_refl w). Qed.
Lemma exec_quiet w s : quiet w (emit (EvExec s) w).
Proof. apply quiet_emit; reflexivity. Qed.
Lemma query_quiet w q : quiet w (emit (EvQueryRow q) w).
Proof. apply quiet_emit; reflexivity. Qed.
Lemma exec_inside w s : inside_tx w (emit (EvExec s) w).
Proof. apply inside_tx_emit; reflexivity. Qed.
Lemma query_inside w q : inside_tx w (emit (EvQueryRow q) w).
Proof. apply inside_tx_emit; reflexivity. Qed.

Lemma insertBarrier_quiet tx ty g b bt reason : preserves quiet (insertBarrier tx ty g b bt reason).
Proof.
  exact (insertBarrier_preserves quiet quiet_refl quiet_trans set_faults_quiet
           set_txn_quiet exec_quiet tx ty g b bt reason).
Qed.

Lemma logQueryRow_quiet tx q : preserves quiet (logQueryRow tx q).
Proof.
  exact (logQueryRow_preserves quiet quiet_refl quiet_trans set_faults_quiet query_quiet tx q).
Qed.

Lemma insertBarrier_inside tx ty g b bt reason :
  preserves inside_tx (insertBarrier tx ty g b bt reason).
Proof.
  exact (insertBarrier_preserves inside_tx inside_tx_refl inside_tx_trans set_faults_inside
           set_txn_inside exec_inside tx ty g b bt reason).
Qed.

Lemma logQueryRow_inside tx q : preserves inside_tx (logQueryRow tx q).
Proof.
  exact (logQueryRow_preserves inside_tx inside_tx_refl inside_tx_trans set_faults_inside
           query_inside tx q).
Qed.

Lemma logExec_inside tx s : preserves inside_tx (logExec tx s).
Proof.
  exact (logExec_preserves inside_tx inside_tx_refl inside_tx_trans set_faults_inside
           set_txn_inside exec_inside tx s).
Qed.

Lemma BeginTx_quiet db : preserves quiet (BeginTx db).
Proof.
  unfold BeginTx.
  frame quiet_refl quiet_trans
    ltac:(first [apply quiet_emit; reflexivity | apply set_faults_quiet | apply set_txn_quiet]).
Qed.

Lemma tx_Commit_quiet tx : preserves quiet (tx_Commit tx).
Proof.
  unfold tx_Commit.
  frame quiet_refl quiet_trans ltac:(apply quiet_emit; reflexivity).
  match goal with |- quiet ?w _ => destruct (txn w); split; reflexivity end.
Qed.

Lemma tx_Rollback_quiet tx : preserves quiet (tx_Rollback tx).
Proof.
  unfold tx_Rollback.
  frame quiet_refl quiet_trans
    ltac:(first [apply quiet_emit; reflexivity | apply set_txn_quiet]).
Qed.

(** ** Claims and lookups on the table *)

#[local] Arguments run_stmt : simpl never.

Lemma run_insert (ty g b bt reason : string) (rows : list BarrierRow) :
  run_stmt (InsertIgnore ty g b bt reason) rows =
    if slot_taken g b bt rows then (rows, 0)
    else (rows ++ [mkRow ty g b bt reason None], 1).
Proof. reflexivity. Qed.

(** The three ways a claim on a named slot can go: the store fails it,
    there is no open transaction, or the statement runs. *)
Lemma insertBarrier_cases tx ty g b bt reason w :
  bt <> "" ->
  exists n e w',
    insertBarrier tx ty g b bt reason w = (Return (n, e), w') /\
    barrier w' = barrier w /\ faults w' = tl (faults w) /\
    ((exists err, hd None (faults w) = Some err /\ n = 0 /\ e = Some err /\ txn w' = txn w) \/
     (hd None (faults w) = None /\ txn w = None /\ n = 0 /\ e = Some ErrTxDone /\ txn w' = None) \/
     (hd None (faults w) = None /\ e = None /\
      exists rows, txn w = Some rows /\
        n = snd (run_stmt (InsertIgnore ty g b bt reason) rows) /\
        txn w' = Some (fst (run_stmt (InsertIgnore ty g b bt reason) rows)))).
Proof.
  intros Hbt. unfold insertBarrier. rewrite (bool_decide_eq_false_2 _ Hbt).
  unfold logExec, logrus_Printf, tx_Exec, bind, modify, next_fault, ret. simpl.
  destruct (faults w) as [|[err|] fs] eqn:Hf; simpl.
  - destruct (txn w) as [rows|] eqn:Ht.
    + destruct (run_stmt (InsertIgnore ty g b bt reason) rows) as [rows' n] eqn:Hr. simpl.
      exists n, None. eexists. split; [reflexivity|]. simpl. rewrite Hf.
      split; [reflexivity|]. split; [reflexivity|].
      right; right. split; [reflexivity|]. split; [reflexivity|].
      exists rows. rewrite Hr. auto.
    + exists 0, (Some ErrTxDone). eexists. split; [reflexivity|]. simpl. rewrite Hf, Ht.
      split; [reflexivity|]. split; [reflexivity|]. right; left. auto.
  - exists 0, (Some err). eexists. split; [reflexivity|]. simpl.
    split; [reflexivity|]. split; [reflexivity|]. left. exists err. auto.
  - destruct (txn w) as [rows|] eqn:Ht.
    + destruct (run_stmt (InsertIgnore ty g b bt reason) rows) as [rows' n] eqn:Hr. simpl.
      exists n, None. eexists. split; [reflexivity|]. simpl.
      split; [reflexivity|]. split; [reflexivity|].
      right; right. split; [reflexivity|]. split; [reflexivity|].
      exists rows. rewrite Hr. auto.
    + exists 0, (Some ErrTxDone). eexists. split; [reflexivity|]. simpl. rewrite Ht.
      split; [reflexivity|]. split; [reflexivity|]. right; left. auto.
Qed.

(** X1: a claim always returns; its count is 0 or 1; a count of 1 comes
    without error; with count 0 the open transaction holds the table it
    held before; and no claim touches the committed table. *)
Theorem insertBarrier_count tx ty g b bt reason w :
  exists n e w',
    insertBarrier tx ty g b bt reason w = (Return (n, e), w') /\
    (n = 0 \/ (n = 1 /\ e = None)) /\
    (n = 0 -> txn w' = txn w) /\
    barrier w' = barrier w.
Proof.
  destruct (decide (bt = "")) as [-> | Hbt].
  { exists 0, None, w. repeat split; auto. }
  destruct (insertBarrier_cases tx ty g b bt reason w Hbt)
    as (n & e & w' & Hi & Hbar & _ & Hcases).
  exists n, e, w'. split; [exact Hi|].
  destruct Hcases
    as [(err & _ & -> & -> & Ht) | [(_ & Hnone & -> & -> & Ht) | (_ & -> & rows & Hrows & -> & Ht)]].
  - repeat split; auto.
  - repeat split; auto. intros _. congruence.
  - rewrite run_insert in Ht |- *. destruct (slot_taken g b bt rows); simpl in Ht |- *.
    + repeat split; auto. intros _. congruence.
    + repeat split; auto. discriminate.
Qed.

Lemma slot_free_no_match (ty g b bt reason : string) (rows : list BarrierRow) :
  slot_taken g b bt rows = false -> List.find (select_matches ty g b bt reason) rows = None.
Proof.
  unfold slot_taken. induction rows as [|r rows IH]; simpl; [reflexivity|].
  intros [Hr Hrows]%orb_false_iff. unfold select_matches at 1.
  rewrite Hr, andb_false_r. simpl. auto.
Qed.

Lemma find_skip {A} (f : A -> bool) (l1 l2 : list A) :
  List.find f l1 = None -> List.find f (l1 ++ l2) = List.find f l2.
Proof.
  induction l1 as [|a l1 IH]; simpl; [reflexivity|].
  destruct (f a); [discriminate | exact IH].
Qed.

Lemma same_slot_refl (ty g b bt reason : string) (res : option string) :
  same_slot g b bt (mkRow ty g b bt reason res) = true.
Proof. unfold same_slot. simpl. rewrite !bool_decide_eq_true_2 by reflexivity. reflexivity. Qed.

(** The lookup on a store that answers. *)
Lemma logQueryRow_healthy tx q w rows :
  hd None (faults w) = None -> txn w = Some rows ->
  exists w', logQueryRow tx q w = (Return (run_query q rows), w') /\
             txn w' = Some rows /\ barrier w' = barrier w /\ faults w' = tl (faults w).
Proof.
  intros Hf Ht. unfold logQueryRow, logrus_Printf, tx_QueryRow, bind, modify, next_fault, ret.
  simpl. destruct (faults w) as [|[err|] fs] eqn:Hfw; simpl in Hf; try discriminate; simpl;
    rewrite Ht; eexists; (split; [reflexivity|]); simpl; rewrite ?Hfw; auto.
Qed.

(** X2: claim, then look up.  After a claim that took the slot (count 1)
    under [reason], a lookup of that slot in the same transaction, on a
    store that answers, finds a row without result when it asks for
    [reason] and no row at all when it asks for another reason. *)
Theorem claim_then_lookup tx ty g b bt reason reason' w e w' :
  insertBarrier tx ty g b bt reason w = (Return (1, e), w') ->
  hd None (faults w') = None ->
  exists w'',
    logQueryRow tx (SelectResult ty g b bt reason') w' =
      (Return (if bool_decide (reason' = reason) then RowOf None else RowEmpty), w'').
Proof.
  intros Hi Hf.
  destruct (decide (bt = "")) as [-> | Hbt]; [discriminate Hi|].
  destruct (insertBarrier_cases tx ty g b bt reason w Hbt)
    as (n & e0 & w0 & Hi0 & _ & _ & Hcases).
  rewrite Hi in Hi0. injection Hi0 as <- <- <-.
  destruct Hcases as [(err & _ & Hn & _) | [(_ & _ & Hn & _) | (_ & _ & rows & Hrows & Hn & Ht)]];
    try discriminate Hn.
  rewrite run_insert in Hn, Ht. destruct (slot_taken g b bt rows) eqn:Hfree; simpl in Hn, Ht;
    [discriminate Hn|].
  destruct (logQueryRow_healthy tx (SelectResult ty g b bt reason') w' _ Hf Ht)
    as (w'' & Hq & _).
  exists w''. rewrite Hq. f_equal. f_equal. unfold run_query.
  rewrite (find_skip _ _ _ (slot_free_no_match ty g b bt reason' rows Hfree)). simpl.
  unfold select_matches. rewrite same_slot_refl. simpl.
  rewrite (bool_decide_eq_true_2 (ty = ty)) by reflexivity. simpl.
  destruct (decide (reason = reason')) as [-> | Hne].
  - rewrite !bool_decide_eq_true_2 by reflexivity. reflexivity.
  - rewrite !bool_decide_eq_false_2 by congruence. reflexivity.
Qed.

(** ** The barrier *)

Section BarrierFacts.
Context `{codec : JSONCodec}.
Variables (db : sqlDB) (ti : TransInfo) (busiCall : BusiFunc).

Lemma deferred_quiet tx o : preserves quiet (deferred tx o).
Proof.
  unfold deferred, logrus_Printf.
  frame quiet_refl quiet_trans ltac:(first [apply tx_Commit_quiet | apply tx_Rollback_quiet]).
Qed.

(** Once the transaction is open, the call is the body followed by the
    deferred function. *)
Lemma ThroughBarrierCall_open w tx w1 o w2 :
  BeginTx db w = (Return (tx, None), w1) ->
  barrier_steps db tx ti busiCall w1 = (o, w2) ->
  ThroughBarrierCall db ti busiCall w = deferred tx o w2.
Proof.
  intros Hb Hs. unfold ThroughBarrierCall.
  rewrite (bind_Return _ _ _ _ _ Hb). unfold with_defer. rewrite Hs. reflexivity.
Qed.

(** The deferred function hands a returned result through unchanged. *)
Lemma deferred_Return tx res rerr w :
  exists w', deferred tx (Return (res, rerr)) w = (Return (res, rerr), w') /\ quiet w w'.
Proof.
  destruct (deferred tx (Return (res, rerr)) w) as [o w'] eqn:E.
  exists w'. split; [| exact (deferred_quiet _ _ _ _ _ E)].
  destruct rerr; unfold deferred in E; simpl in E; injection E as <- <-; reflexivity.
Qed.

(** A run of the body that ends without a business call, wrapped into the
    whole call. *)
Lemma ThroughBarrierCall_quiet w tx w1 res rerr w2 :
  BeginTx db w = (Return (tx, None), w1) ->
  barrier_steps db tx ti busiCall w1 = (Return (res, rerr), w2) ->
  quiet w1 w2 ->
  exists w', ThroughBarrierCall db ti busiCall w = (Return (res, rerr), w') /\ quiet w w'.
Proof.
  intros Hb Hs Hq.
  rewrite (ThroughBarrierCall_open _ _ _ _ _ Hb Hs).
  destruct (deferred_Return tx res rerr w2) as (w' & -> & Hq').
  exists w'; split; [reflexivity|].
  eapply quiet_trans; [exact (BeginTx_quiet _ _ _ _ Hb)|].
  eapply quiet_trans; eassumption.
Qed.

Lemma claim_origin_quiet tx : preserves quiet (claim_origin ti tx).
Proof. apply insertBarrier_quiet. Qed.
Lemma claim_own_quiet tx : preserves quiet (claim_own ti tx).
Proof. apply insertBarrier_quiet. Qed.
Lemma lookup_own_quiet tx : preserves quiet (lookup_own ti tx).
Proof. apply logQueryRow_quiet. Qed.

Lemma barrier_steps_claims tx w1 n1 e1 w2 n2 rerr w3 :
  claim_origin ti tx w1 = (Return (n1, e1), w2) ->
  claim_own ti tx w2 = (Return (n2, rerr), w3) ->
  barrier_steps db tx ti busiCall w1 = barrier_decision db tx ti busiCall n1 n2 rerr w3.
Proof.
  intros H1 H2. unfold barrier_steps.
  rewrite (bind_Return _ _ _ _ _ H1). cbv beta iota.
  rewrite (bind_Return _ _ _ _ _ H2). reflexivity.
Qed.

(** The second arm of the decision: the own slot was already taken. *)
Lemma barrier_decision_lookup tx n1 rerr w row w' :
  compensating (BranchType ti) && (0 <? n1) = false ->
  lookup_own ti tx w = (Return row, w') ->
  barrier_decision db tx ti busiCall n1 0 rerr w =
    (Return match Scan row with
            | (_, Some ErrNoRows) => (FAILURE, rerr)
            | (_, Some e) => (Nil, Some e)
            | (result, None) =>
                if Valid result
                then (Any_of_error (snd (json_Unmarshal (String_ result) Nil)), rerr)
                else (SUCCESS, rerr)
            end, w').
Proof.
  intros Hn Hq. unfold barrier_decision. fold (compensating (BranchType ti)).
  rewrite Hn. change (0 =? 0) with true. cbv iota.
  fold (lookup_own ti tx). rewrite (bind_Return _ _ _ _ _ Hq).
  destruct (Scan row) as [result [[]|]]; try reflexivity.
  destruct (Valid result); [|reflexivity].
  destruct (json_Unmarshal (String_ result) Nil); reflexivity.
Qed.

Lemma forward_not_compensating :
  BranchType ti <> "cancel" -> BranchType ti <> "compensate" ->
  compensating (BranchType ti) = false.
Proof.
  intros Hc Hk. unfold compensating. rewrite !bool_decide_eq_false_2 by assumption. reflexivity.
Qed.

(** C2: a forward call (any branch type other than "cancel" and
    "compensate") whose own-slot claim returns 0 and whose lookup under its
    own reason finds no row returns the synthetic failure, and the business
    callback is not invoked: the business tables and the number of business
    calls are what they were. *)
Theorem suspension_returns_failure w tx w1 rerr w2 row w3 :
  BranchType ti <> "cancel" -> BranchType ti <> "compensate" ->
  BeginTx db w = (Return (tx, None), w1) ->
  claim_own ti tx w1 = (Return (0, rerr), w2) ->
  lookup_own ti tx w2 = (Return row, w3) ->
  snd (Scan row) = Some ErrNoRows ->
  exists w', ThroughBarrierCall db ti busiCall w = (Return (FAILURE, rerr), w') /\ quiet w w'.
Proof.
  intros Hc Hk Hb Hown Hq Hscan.
  eapply ThroughBarrierCall_quiet; [exact Hb | |].
  - rewrite (barrier_steps_claims tx w1 0 None w1 0 rerr w2);
      [| exact (claim_origin_forward tx ti w1 Hc Hk) | exact Hown].
    rewrite (barrier_decision_lookup tx 0 rerr w2 row w3); [| | exact Hq].
    + destruct (Scan row) as [result err]. simpl in Hscan. subst err. reflexivity.
    + rewrite (forward_not_compensating Hc Hk). reflexivity.
  - eapply quiet_trans; [exact (claim_own_quiet _ _ _ _ Hown)|].
    exact (lookup_own_quiet _ _ _ _ Hq).
Qed.

(** The first arm of the decision: a compensating call whose poison
    claim won. *)
Lemma barrier_decision_null_compensation tx n1 n2 rerr w :
  compensating (BranchType ti) = true -> 0 < n1 ->
  barrier_decision db tx ti busiCall n1 n2 rerr w = (Return (SUCCESS, rerr), w).
Proof.
  intros Hc Hn. unfold barrier_decision. fold (compensating (BranchType ti)).
  rewrite Hc. rewrite (proj2 (Z.ltb_lt 0 n1) Hn). reflexivity.
Qed.

Lemma compensating_iff (bt : string) :
  compensating bt = true <-> bt = "cancel" \/ bt = "compensate".
Proof. unfold compensating. rewrite orb_true_iff, !bool_decide_eq_true. tauto. Qed.

(** C3: a cancel or compensate call whose poison claim on the forward slot
    takes it (count 1) returns the synthetic success without invoking the
    callback; and so does a later such call whose own-slot claim returns 0
    and whose stored row has no result. *)
Theorem null_compensation_returns_success :
  BranchType ti = "cancel" \/ BranchType ti = "compensate" ->
  (forall w tx w1 e1 w2 n2 rerr w3,
     BeginTx db w = (Return (tx, None), w1) ->
     claim_origin ti tx w1 = (Return (1, e1), w2) ->
     claim_own ti tx w2 = (Return (n2, rerr), w3) ->
     exists w', ThroughBarrierCall db ti busiCall w = (Return (SUCCESS, rerr), w') /\ quiet w w') /\
  (forall w tx w1 n1 e1 w2 rerr w3 w4,
     BeginTx db w = (Return (tx, None), w1) ->
     claim_origin ti tx w1 = (Return (n1, e1), w2) ->
     claim_own ti tx w2 = (Return (0, rerr), w3) ->
     lookup_own ti tx w3 = (Return (RowOf None), w4) ->
     exists w', ThroughBarrierCall db ti busiCall w = (Return (SUCCESS, rerr), w') /\ quiet w w').
Proof.
  intros Hc%compensating_iff. split.
  - intros w tx w1 e1 w2 n2 rerr w3 Hb H1 H2.
    eapply ThroughBarrierCall_quiet; [exact Hb | |].
    + rewrite (barrier_steps_claims _ _ _ _ _ _ _ _ H1 H2).
      apply barrier_decision_null_compensation; [exact Hc | lia].
    + eapply quiet_trans; [exact (claim_origin_quiet _ _ _ _ H1)|].
      exact (claim_own_quiet _ _ _ _ H2).
  - intros w tx w1 n1 e1 w2 rerr w3 w4 Hb H1 H2 Hq.
    assert (quiet w1 w3) as Hq13.
    { eapply quiet_trans; [exact (claim_origin_quiet _ _ _ _ H1)|].
      exact (claim_own_quiet _ _ _ _ H2). }
    destruct (Z.ltb_spec 0 n1) as [Hpos|Hle].
    + eapply ThroughBarrierCall_quiet; [exact Hb | | exact Hq13].
      rewrite (barrier_steps_claims _ _ _ _ _ _ _ _ H1 H2).
      apply barrier_decision_null_compensation; assumption.
    + eapply ThroughBarrierCall_quiet; [exact Hb | |].
      * rewrite (barrier_steps_claims _ _ _ _ _ _ _ _ H1 H2).
        rewrite (barrier_decision_lookup tx n1 rerr w3 (RowOf None) w4); [reflexivity | | exact Hq].
        rewrite (proj2 (Z.ltb_ge 0 n1) Hle). apply andb_false_r.
      * eapply quiet_trans; [exact Hq13 | exact (lookup_own_quiet _ _ _ _ Hq)].
Qed.

(** C1, as the code has it: on a replay (own-slot claim 0, a stored row
    under the call's own reason with payload [payload]) the callback is not
    invoked, but what the call returns is the [error] result of
    [json.Unmarshal] and not the decoded value: when decoding succeeds with
    value [R], the caller gets the nil interface. *)
Theorem replay_returns_nil w tx w1 n1 e1 w2 rerr w3 payload w4 R :
  BeginTx db w = (Return (tx, None), w1) ->
  claim_origin ti tx w1 = (Return (n1, e1), w2) ->
  compensating (BranchType ti) && (0 <? n1) = false ->
  claim_own ti tx w2 = (Return (0, rerr), w3) ->
  lookup_own ti tx w3 = (Return (RowOf (Some payload)), w4) ->
  json_Unmarshal payload Nil = (Value R, None) ->
  exists w', ThroughBarrierCall db ti busiCall w = (Return (Nil, rerr), w') /\ quiet w w'.
Proof.
  intros Hb H1 Hn H2 Hq Hu.
  eapply ThroughBarrierCall_quiet; [exact Hb | |].
  - rewrite (barrier_steps_claims _ _ _ _ _ _ _ _ H1 H2).
    rewrite (barrier_decision_lookup tx n1 rerr w3 _ w4 Hn Hq).
    simpl. rewrite Hu. reflexivity.
  - eapply quiet_trans; [exact (claim_origin_quiet _ _ _ _ H1)|].
    eapply quiet_trans; [exact (claim_own_quiet _ _ _ _ H2)|].
    exact (lookup_own_quiet _ _ _ _ Hq).
Qed.

(** *** The unit of work *)

Lemma call_busi_inside : preserves inside_tx (call_busi busiCall db).
Proof.
  unfold call_busi.
  apply (preserves_bind _ inside_tx_trans).
  - apply preserves_modify. intros w. apply inside_tx_emit. reflexivity.
  - intros _ w o w'. destruct (busiCall db (busi w)) as [ob b]. intros [= <- <-].
    split; [reflexivity|]. exists []. split; [symmetry; apply app_nil_r | reflexivity].
Qed.

Lemma barrier_decision_inside tx n1 n2 rerr :
  preserves inside_tx (barrier_decision db tx ti busiCall n1 n2 rerr).
Proof.
  unfold barrier_decision.
  frame inside_tx_refl inside_tx_trans
    ltac:(first [apply logQueryRow_inside | apply call_busi_inside | apply logExec_inside]).
Qed.

Lemma barrier_steps_inside tx : preserves inside_tx (barrier_steps db tx ti busiCall).
Proof.
  unfold barrier_steps, logrus_Printf.
  frame inside_tx_refl inside_tx_trans
    ltac:(first [apply insertBarrier_inside | apply barrier_decision_inside]).
Qed.

(** [BeginTx] either fails on the store's answer, or opens a transaction
    on the committed table. *)
Lemma BeginTx_cases w :
  exists w1, trace w1 = trace w ++ [EvBeginTx] /\ barrier w1 = barrier w /\ busi w1 = busi w /\
    ((exists e, hd_error (faults w) = Some (Some e) /\
                BeginTx db w = (Return (mkTx db, Some e), w1) /\ txn w1 = txn w) \/
     (BeginTx db w = (Return (mkTx db, None), w1) /\
      txn w1 = Some (barrier w) /\ faults w1 = tl (faults w) /\
      hd (None) (faults w) = None)).
Proof.
  unfold BeginTx, bind, modify, next_fault, ret. simpl.
  destruct (faults w) as [|[e|] fs] eqn:Hf; simpl.
  - exists (set_txn (Some (barrier w)) (emit EvBeginTx w)).
    repeat split. right. repeat split. simpl. rewrite Hf. reflexivity.
  - exists (set_faults fs (emit EvBeginTx w)). repeat split. left. exists e. repeat split.
  - exists (set_txn (Some (barrier w)) (set_faults fs (emit EvBeginTx w))).
    repeat split. right. repeat split.
Qed.

(** The deferred function closes the transaction with [closing o] and
    leaves the call with the outcome [o] of the body. *)
Lemma deferred_closes tx o w :
  exists w', deferred tx o w = (o, w') /\ trace w' = trace w ++ [closing o] /\ txn w' = None /\
             busi w' = busi w /\ (closing o = EvRollback -> barrier w' = barrier w).
Proof.
  unfold deferred, logrus_Printf, tx_Rollback, tx_Commit, bind, modify, ret, panic.
  destruct o as [[res [e|]]|x]; simpl; eexists; (split; [reflexivity|]); simpl;
    [| destruct (txn w) eqn:E; simpl |]; repeat split; auto; discriminate.
Qed.

(** A commit publishes the working copy of the transaction. *)
Lemma deferred_commits tx res w rows :
  txn w = Some rows ->
  barrier (snd (deferred tx (Return (res, None)) w)) = rows.
Proof.
  intros Ht. unfold deferred, logrus_Printf, tx_Commit, bind, modify, ret. simpl.
  rewrite Ht. reflexivity.
Qed.


(** *** The callback *)

Lemma logExec_returns tx st w :
  exists r e w', logExec tx st w = (Return (r, e), w').
Proof.
  unfold logExec, logrus_Printf, tx_Exec, bind, modify, next_fault, ret. simpl.
  destruct (faults w) as [|[e|] fs]; simpl; eauto;
    (destruct (txn w) as [rows|]; [destruct (run_stmt st rows)|]; eauto).
Qed.

(** The third arm of the decision: the callback runs once, on the
    committed business tables, and what it wrote stays. *)
Lemma barrier_decision_first_arrival tx n1 n2 rerr w ob b' :
  compensating (BranchType ti) && (0 <? n1) = false -> n2 <> 0 ->
  busiCall db (busi w) = (ob, b') ->
  exists o w', barrier_decision db tx ti busiCall n1 n2 rerr w = (o, w') /\
    busi w' = b' /\ busi_calls (trace w') = S (busi_calls (trace w)) /\
    arrival_outcome ob o.
Proof.
  intros Hn Hn2 Hcall. unfold barrier_decision. fold (compensating (BranchType ti)).
  rewrite Hn, (proj2 (Z.eqb_neq n2 0) Hn2). cbv iota.
  assert (busi_calls (trace w ++ [EvBusiCall]) = S (busi_calls (trace w))) as Hcount.
  { rewrite busi_calls_app. unfold busi_calls at 2. simpl. lia. }
  unfold call_busi, bind at 1 2, modify. simpl. rewrite Hcall.
  destruct ob as [[res [e|]]|x]; simpl.
  - eexists _, _. split; [reflexivity|]. auto.
  - unfold bind at 1. destruct (MustMarshalString res) as [sval|x] eqn:Hm.
    + match goal with |- context [logExec tx ?st] =>
        destruct (logExec_returns tx st (set_busi b' (emit EvBusiCall w))) as (r & e & w' & He);
        pose proof (logExec_preserves quiet quiet_refl quiet_trans set_faults_quiet
                      set_txn_quiet exec_quiet tx st _ _ _ He) as [Hb1 Hb2]
      end.
      rewrite (bind_Return _ _ _ _ _ He). eexists _, _. split; [reflexivity|].
      simpl in Hb1, Hb2. split; [congruence|]. split; [congruence|]. eauto.
    + eexists _, _. split; [reflexivity|]. auto.
  - eexists _, _. split; [reflexivity|]. auto.
Qed.

(** The first two arms make no business call. *)
Lemma barrier_decision_quiet tx n1 n2 rerr :
  compensating (BranchType ti) && (0 <? n1) = true \/ n2 = 0 ->
  preserves quiet (barrier_decision db tx ti busiCall n1 n2 rerr).
Proof.
  intros Harm. unfold barrier_decision. fold (compensating (BranchType ti)).
  destruct (compensating (BranchType ti) && (0 <? n1)).
  - apply (preserves_ret _ quiet_refl).
  - destruct Harm as [Htrue | ->]; [discriminate|]. change (0 =? 0) with true. cbv iota.
    frame quiet_refl quiet_trans ltac:(apply logQueryRow_quiet).
Qed.

Lemma BeginTx_barrier w o w1 : BeginTx db w = (o, w1) -> barrier w1 = barrier w.
Proof.
  intros Hb.
  destruct (BeginTx_cases w) as (w1' & _ & Hbar & _ & [(e & _ & Hb' & _) | (Hb' & _)]);
    rewrite Hb in Hb'; injection Hb' as _ ->; exact Hbar.
Qed.

Lemma busi_calls_closing (t : list Event) (o : Outcome (Any * option error)) :
  busi_calls (t ++ [closing o]) = busi_calls t.
Proof.
  rewrite busi_calls_app. unfold busi_calls at 2.
  destruct o as [[? [?|]]|?]; simpl; lia.
Qed.

(** The steps of a call that reaches the third arm. *)
Lemma first_arrival_steps w tx w1 n1 e1 w2 n2 rerr w3 ob b' :
  BeginTx db w = (Return (tx, None), w1) ->
  claim_origin ti tx w1 = (Return (n1, e1), w2) ->
  claim_own ti tx w2 = (Return (n2, rerr), w3) ->
  compensating (BranchType ti) && (0 <? n1) = false ->
  n2 <> 0 ->
  busiCall db (busi w) = (ob, b') ->
  exists o w4, barrier_steps db tx ti busiCall w1 = (o, w4) /\
    arrival_outcome ob o /\
    busi_calls (trace w4) = S (busi_calls (trace w)) /\
    busi w4 = b' /\ barrier w4 = barrier w.
Proof.
  intros Hb H1 H2 Hn Hn2 Hcall.
  assert (quiet w w3) as [Hbusi Hcalls].
  { eapply quiet_trans; [exact (BeginTx_quiet _ _ _ _ Hb)|].
    eapply quiet_trans; [exact (claim_origin_quiet _ _ _ _ H1)|].
    exact (claim_own_quiet _ _ _ _ H2). }
  rewrite <- Hbusi in Hcall.
  destruct (barrier_decision_first_arrival tx n1 n2 rerr w3 ob b' Hn Hn2 Hcall)
    as (o & w4 & Hd & Hb4 & Hc4 & Ho).
  assert (barrier_steps db tx ti busiCall w1 = (o, w4)) as Hs.
  { rewrite (barrier_steps_claims _ _ _ _ _ _ _ _ H1 H2). exact Hd. }
  exists o, w4. split; [exact Hs|]. split; [exact Ho|].
  split; [congruence|]. split; [exact Hb4|].
  destruct (barrier_steps_inside _ _ _ _ Hs) as [-> _].
  exact (BeginTx_barrier _ _ _ Hb).
Qed.

(** C4, as the code has it: on a first genuine arrival the callback is
    invoked once, with the database handle [db] that the caller gave to
    [ThroughBarrierCall] and not with the transaction of the barrier.  It
    acts on the committed business tables, and what it wrote there is what
    the call leaves behind, however the transaction of the barrier ends:
    when that one is rolled back, the barrier table is as before the call
    and the writes of the callback are kept. *)
Theorem callback_runs_outside_unit w tx w1 n1 e1 w2 n2 rerr w3 ob b' :
  BeginTx db w = (Return (tx, None), w1) ->
  claim_origin ti tx w1 = (Return (n1, e1), w2) ->
  claim_own ti tx w2 = (Return (n2, rerr), w3) ->
  compensating (BranchType ti) && (0 <? n1) = false ->
  n2 <> 0 ->
  busiCall db (busi w) = (ob, b') ->
  exists o w', ThroughBarrierCall db ti busiCall w = (o, w') /\
    arrival_outcome ob o /\
    busi_calls (trace w') = S (busi_calls (trace w)) /\
    busi w' = b' /\
    (closing o = EvRollback -> barrier w' = barrier w).
Proof.
  intros Hb H1 H2 Hn Hn2 Hcall.
  destruct (first_arrival_steps w tx w1 n1 e1 w2 n2 rerr w3 ob b' Hb H1 H2 Hn Hn2 Hcall)
    as (o & w4 & Hs & Ho & Hc4 & Hb4 & Hbar4).
  destruct (deferred_closes tx o w4) as (w' & Hdef & Ht' & _ & Hb' & Hrb).
  exists o, w'. split; [rewrite (ThroughBarrierCall_open _ _ _ _ _ Hb Hs); exact Hdef|].
  split; [exact Ho|]. split; [|split].
  - rewrite Ht', busi_calls_closing. exact Hc4.
  - congruence.
  - intros Hc. rewrite (Hrb Hc). exact Hbar4.
Qed.

(** *** A store that answers *)

#[local] Arguments run_stmt : simpl never.

Lemma insertBarrier_healthy tx ty g b bt reason w rows :
  faults w = [] -> txn w = Some rows ->
  exists w',
    insertBarrier tx ty g b bt reason w
      = (Return (snd (claim_rows ty g b bt reason rows), None), w') /\
    faults w' = [] /\ txn w' = Some (fst (claim_rows ty g b bt reason rows)).
Proof.
  intros Hf Ht. unfold insertBarrier, claim_rows.
  destruct (bool_decide (bt = "")); [exists w; auto|].
  unfold logExec, logrus_Printf, tx_Exec, bind, modify, next_fault, ret. simpl.
  rewrite Hf. simpl. rewrite Ht.
  destruct (run_stmt (InsertIgnore ty g b bt reason) rows) as [rows' n]. simpl.
  eexists. split; [reflexivity|]. split; [exact Hf | reflexivity].
Qed.


(** Whether the counts lead to the third arm. *)
Lemma arm_cases n1 n2 :
  (compensating (BranchType ti) && (0 <? n1) = true \/ n2 = 0) \/
  (compensating (BranchType ti) && (0 <? n1) = false /\ n2 <> 0).
Proof.
  destruct (compensating (BranchType ti) && (0 <? n1)); [auto|].
  destruct (Z.eq_dec n2 0); auto.
Qed.


(** *** Every way through the call *)

Lemma insertBarrier_returns tx ty g b bt reason w :
  exists n e w', insertBarrier tx ty g b bt reason w = (Return (n, e), w') /\
                 (e <> None -> n = 0).
Proof.
  destruct (decide (bt = "")) as [-> | Hbt].
  { exists 0, None, w. split; [reflexivity | congruence]. }
  destruct (insertBarrier_cases tx ty g b bt reason w Hbt)
    as (n & e & w' & Hi & _ & _ & Hcases).
  exists n, e, w'. split; [exact Hi|]. intros He.
  destruct Hcases as [(err & _ & -> & _) | [(_ & _ & -> & _) | (_ & -> & _)]]; congruence.
Qed.

Lemma claim_origin_returns tx w :
  exists n e w', claim_origin ti tx w = (Return (n, e), w') /\ (e <> None -> n = 0).
Proof. apply insertBarrier_returns. Qed.

Lemma claim_own_returns tx w :
  exists n e w', claim_own ti tx w = (Return (n, e), w') /\ (e <> None -> n = 0).
Proof. apply insertBarrier_returns. Qed.

Lemma logQueryRow_returns tx q w : exists row w', logQueryRow tx q w = (Return row, w').
Proof.
  unfold logQueryRow, logrus_Printf, tx_QueryRow, bind, modify, next_fault, ret. simpl.
  destruct (faults w) as [|[err|] fs]; simpl; eauto; destruct (txn w); eauto.
Qed.

(** A call whose transaction opened: how it ends, from how its steps end. *)
Lemma run_closed w tx w1 o w2 :
  BeginTx db w = (Return (tx, None), w1) ->
  barrier_steps db tx ti busiCall w1 = (o, w2) ->
  exists w', ThroughBarrierCall db ti busiCall w = (o, w') /\
    trace w' = trace w2 ++ [closing o] /\ busi w' = busi w2 /\ txn w' = None /\
    (closing o = EvRollback -> barrier w' = barrier w).
Proof.
  intros Hb Hs.
  destruct (deferred_closes tx o w2) as (w' & Hd & Ht & Htx & Hbusi & Hrb).
  exists w'. split; [rewrite (ThroughBarrierCall_open _ _ _ _ _ Hb Hs); exact Hd|].
  repeat split; try assumption.
  intros Hc. rewrite (Hrb Hc).
  destruct (barrier_steps_inside _ _ _ _ Hs) as [-> _]. exact (BeginTx_barrier _ _ _ Hb).
Qed.

Lemma claims_quiet w tx w1 n1 e1 w2 n2 rerr w3 :
  BeginTx db w = (Return (tx, None), w1) ->
  claim_origin ti tx w1 = (Return (n1, e1), w2) ->
  claim_own ti tx w2 = (Return (n2, rerr), w3) ->
  quiet w w3.
Proof.
  intros Hb H1 H2.
  eapply quiet_trans; [exact (BeginTx_quiet _ _ _ _ Hb)|].
  eapply quiet_trans; [exact (claim_origin_quiet _ _ _ _ H1)|].
  exact (claim_own_quiet _ _ _ _ H2).
Qed.

(** X3: a call invokes the business callback at most once; and when it
    does not invoke it, the business tables are what they were. *)
Theorem callback_at_most_once w :
  exists o w', ThroughBarrierCall db ti busiCall w = (o, w') /\
    (quiet w w' \/ busi_calls (trace w') = S (busi_calls (trace w))).
Proof.
  destruct (BeginTx_cases w) as (w1 & _ & _ & _ & [(e & _ & Hb & _) | (Hb & _)]).
  { exists (Return (Nil, Some e)), w1. split.
    - unfold ThroughBarrierCall. rewrite (bind_Return _ _ _ _ _ Hb). reflexivity.
    - left. exact (BeginTx_quiet _ _ _ _ Hb). }
  destruct (claim_origin_returns (mkTx db) w1) as (n1 & e1 & w2 & H1 & _).
  destruct (claim_own_returns (mkTx db) w2) as (n2 & rerr & w3 & H2 & _).
  pose proof (claims_quiet _ _ _ _ _ _ _ _ _ Hb H1 H2) as Hq3.
  destruct (arm_cases n1 n2) as [Harm | [Hn Hn2]].
  - destruct (barrier_decision db (mkTx db) ti busiCall n1 n2 rerr w3) as [o w4] eqn:Hd.
    assert (barrier_steps db (mkTx db) ti busiCall w1 = (o, w4)) as Hs
      by (rewrite (barrier_steps_claims _ _ _ _ _ _ _ _ H1 H2); exact Hd).
    destruct (run_closed _ _ _ _ _ Hb Hs) as (w' & Hcall & Ht & Hbusi & _).
    exists o, w'. split; [exact Hcall|]. left.
    destruct (quiet_trans _ _ _ Hq3 (barrier_decision_quiet _ _ _ _ Harm _ _ _ Hd)) as [Hb4 Hc4].
    split; [congruence|]. rewrite Ht, busi_calls_closing. exact Hc4.
  - destruct (busiCall db (busi w)) as [ob b'] eqn:Hcall.
    destruct (first_arrival_steps w _ w1 n1 e1 w2 n2 rerr w3 ob b' Hb H1 H2 Hn Hn2 Hcall)
      as (o & w4 & Hs & _ & Hc4 & _).
    destruct (run_closed _ _ _ _ _ Hb Hs) as (w' & Hrun & Ht & _).
    exists o, w'. split; [exact Hrun|]. right.
    rewrite Ht, busi_calls_closing. exact Hc4.
Qed.

(** X4: when the lookup of the own slot fails with a store error (any
    error but "no rows"), the call returns that error with a nil result,
    the transaction is rolled back, the committed table is what it was and
    the callback is not invoked. *)
Theorem lookup_error_surfaced w tx w1 n1 e1 w2 rerr w3 row w4 e :
  BeginTx db w = (Return (tx, None), w1) ->
  claim_origin ti tx w1 = (Return (n1, e1), w2) ->
  compensating (BranchType ti) && (0 <? n1) = false ->
  claim_own ti tx w2 = (Return (0, rerr), w3) ->
  lookup_own ti tx w3 = (Return row, w4) ->
  snd (Scan row) = Some e -> e <> ErrNoRows ->
  exists w', ThroughBarrierCall db ti busiCall w = (Return (Nil, Some e), w') /\
    quiet w w' /\ last (trace w') = Some EvRollback /\ barrier w' = barrier w.
Proof.
  intros Hb H1 Hn H2 Hq Hscan Hne.
  assert (barrier_steps db tx ti busiCall w1 = (Return (Nil, Some e), w4)) as Hs.
  { rewrite (barrier_steps_claims _ _ _ _ _ _ _ _ H1 H2).
    rewrite (barrier_decision_lookup tx n1 rerr w3 row w4 Hn Hq).
    destruct (Scan row) as [result err]. simpl in Hscan. subst err.
    destruct e; [congruence | reflexivity | reflexivity]. }
  destruct (run_closed _ _ _ _ _ Hb Hs) as (w' & Hrun & Ht & Hbusi & _ & Hrb).
  exists w'. split; [exact Hrun|].
  destruct (quiet_trans _ _ _ (claims_quiet _ _ _ _ _ _ _ _ _ Hb H1 H2)
              (lookup_own_quiet _ _ _ _ Hq)) as [Hb4 Hc4].
  split; [|split].
  - split; [congruence|]. rewrite Ht, busi_calls_closing. exact Hc4.
  - rewrite Ht. apply last_snoc.
  - exact (Hrb eq_refl).
Qed.

(** X5: when the own-slot claim fails with a store error, the call ends
    with a non-nil error whatever the poison claim and the lookup did; the
    transaction is rolled back, the committed table is what it was and the
    callback is not invoked. *)
Theorem own_claim_error_surfaced w tx w1 n1 e1 w2 n2 e w3 :
  BeginTx db w = (Return (tx, None), w1) ->
  claim_origin ti tx w1 = (Return (n1, e1), w2) ->
  claim_own ti tx w2 = (Return (n2, Some e), w3) ->
  exists res e' w', ThroughBarrierCall db ti busiCall w = (Return (res, Some e'), w') /\
    quiet w w' /\ last (trace w') = Some EvRollback /\ barrier w' = barrier w.
Proof.
  intros Hb H1 H2.
  assert (n2 = 0) as ->.
  { destruct (claim_own_returns tx w2) as (n & e0 & w0 & Hi & Hz).
    rewrite H2 in Hi. injection Hi as <- <- <-. apply Hz. discriminate. }
  pose proof (claims_quiet _ _ _ _ _ _ _ _ _ Hb H1 H2) as Hq3.
  assert (exists res e' w4, barrier_steps db tx ti busiCall w1 = (Return (res, Some e'), w4) /\
                            quiet w3 w4) as (res & e' & w4 & Hs & Hq4).
  { rewrite (barrier_steps_claims _ _ _ _ _ _ _ _ H1 H2).
    destruct (compensating (BranchType ti) && (0 <? n1)) eqn:Hn.
    - apply andb_true_iff in Hn as [Hc Hpos]. apply Z.ltb_lt in Hpos.
      rewrite (barrier_decision_null_compensation tx n1 0 (Some e) w3 Hc Hpos).
      eexists _, _, _. split; [reflexivity | apply quiet_refl].
    - destruct (logQueryRow_returns tx (SelectResult (TransType ti) (Gid ti) (BranchID ti)
                  (BranchType ti) (BranchType ti)) w3) as (row & w4 & Hq).
      rewrite (barrier_decision_lookup tx n1 (Some e) w3 row w4 Hn Hq).
      pose proof (lookup_own_quiet _ _ _ _ Hq) as Hq4.
      destruct (Scan row) as [result [[| |msg]|]]; [| | |destruct (Valid result)];
        eexists _, _, _; (split; [reflexivity | exact Hq4]). }
  destruct (run_closed _ _ _ _ _ Hb Hs) as (w' & Hrun & Ht & Hbusi & _ & Hrb).
  exists res, e', w'. split; [exact Hrun|].
  destruct (quiet_trans _ _ _ Hq3 Hq4) as [Hb4 Hc4].
  split; [|split].
  - split; [congruence|]. rewrite Ht, busi_calls_closing. exact Hc4.
  - rewrite Ht. apply last_snoc.
  - exact (Hrb eq_refl).
Qed.

(** What the third arm computes, from the outcome of the callback. *)
Lemma barrier_decision_callback tx n1 n2 rerr w ob b' :
  compensating (BranchType ti) && (0 <? n1) = false -> n2 <> 0 ->
  busiCall db (busi w) = (ob, b') ->
  barrier_decision db tx ti busiCall n1 n2 rerr w =
    match ob with
    | Panicked x => (Panicked x, set_busi b' (emit EvBusiCall w))
    | Return (res, Some e) => (Return (res, Some e), set_busi b' (emit EvBusiCall w))
    | Return (res, None) =>
        match MustMarshalString res with
        | Panicked x => (Panicked x, set_busi b' (emit EvBusiCall w))
        | Return sval =>
            match logExec tx (UpdateResult sval (TransType ti) (Gid ti) (BranchID ti)
                                (BranchType ti)) (set_busi b' (emit EvBusiCall w)) with
            | (Return (_, err), w') => (Return (res, err), w')
            | (Panicked x, w') => (Panicked x, w')
            end
        end
    end.
Proof.
  intros Hn Hn2 Hcall. unfold barrier_decision. fold (compensating (BranchType ti)).
  rewrite Hn, (proj2 (Z.eqb_neq n2 0) Hn2). cbv iota.
  unfold call_busi, bind at 1 2, modify. simpl. rewrite Hcall.
  destruct ob as [[res [e|]]|x]; simpl; try reflexivity.
  unfold bind at 1. destruct (MustMarshalString res) as [sval|x]; [|reflexivity].
  unfold bind at 1.
  destruct (logExec tx _ _) as [[[r err]|x] w']; reflexivity.
Qed.

(** X6: when the callback returns an error, the call returns the result
    and the error of the callback as they are; between the callback and
    the rollback nothing is sent to the store, so no result is written;
    the committed barrier table is what it was, and what the callback
    wrote to the business tables stays. *)
Theorem callback_error_returned w tx w1 n1 e1 w2 n2 rerr w3 res e b' :
  BeginTx db w = (Return (tx, None), w1) ->
  claim_origin ti tx w1 = (Return (n1, e1), w2) ->
  claim_own ti tx w2 = (Return (n2, rerr), w3) ->
  compensating (BranchType ti) && (0 <? n1) = false ->
  n2 <> 0 ->
  busiCall db (busi w) = (Return (res, Some e), b') ->
  exists w', ThroughBarrierCall db ti busiCall w = (Return (res, Some e), w') /\
    trace w' = trace w3 ++ [EvBusiCall; EvRollback] /\
    barrier w' = barrier w /\ busi w' = b'.
Proof.
  intros Hb H1 H2 Hn Hn2 Hcall.
  destruct (claims_quiet _ _ _ _ _ _ _ _ _ Hb H1 H2) as [Hbusi3 _].
  rewrite <- Hbusi3 in Hcall.
  assert (barrier_steps db tx ti busiCall w1 =
            (Return (res, Some e), set_busi b' (emit EvBusiCall w3))) as Hs.
  { rewrite (barrier_steps_claims _ _ _ _ _ _ _ _ H1 H2).
    exact (barrier_decision_callback tx n1 n2 rerr w3 _ b' Hn Hn2 Hcall). }
  destruct (run_closed _ _ _ _ _ Hb Hs) as (w' & Hrun & Ht & Hbusi & _ & Hrb).
  exists w'. split; [exact Hrun|]. split; [|split].
  - rewrite Ht. simpl. rewrite <- app_assoc. reflexivity.
  - exact (Hrb eq_refl).
  - exact Hbusi.
Qed.

(** X7: when the callback succeeded and the write of its result fails,
    the call returns the result of the callback together with the error of
    the write; the transaction is rolled back, so the claim of the slot
    does not reach the committed table, and what the callback wrote to the
    business tables stays. *)
Theorem result_write_error_surfaced w tx w1 n1 e1 w2 n2 rerr w3 res b' sval r e w5 :
  BeginTx db w = (Return (tx, None), w1) ->
  claim_origin ti tx w1 = (Return (n1, e1), w2) ->
  claim_own ti tx w2 = (Return (n2, rerr), w3) ->
  compensating (BranchType ti) && (0 <? n1) = false ->
  n2 <> 0 ->
  busiCall db (busi w) = (Return (res, None), b') ->
  MustMarshalString res = Return sval ->
  logExec tx (UpdateResult sval (TransType ti) (Gid ti) (BranchID ti) (BranchType ti))
          (set_busi b' (emit EvBusiCall w3)) = (Return (r, Some e), w5) ->
  exists w', ThroughBarrierCall db ti busiCall w = (Return (res, Some e), w') /\
    last (trace w') = Some EvRollback /\ barrier w' = barrier w /\ busi w' = b'.
Proof.
  intros Hb H1 H2 Hn Hn2 Hcall Hm Hu.
  destruct (claims_quiet _ _ _ _ _ _ _ _ _ Hb H1 H2) as [Hbusi3 _].
  rewrite <- Hbusi3 in Hcall.
  assert (barrier_steps db tx ti busiCall w1 = (Return (res, Some e), w5)) as Hs.
  { rewrite (barrier_steps_claims _ _ _ _ _ _ _ _ H1 H2).
    rewrite (barrier_decision_callback tx n1 n2 rerr w3 _ b' Hn Hn2 Hcall), Hm, Hu.
    reflexivity. }
  destruct (run_closed _ _ _ _ _ Hb Hs) as (w' & Hrun & Ht & Hbusi & _ & Hrb).
  exists w'. split; [exact Hrun|]. split; [|split].
  - rewrite Ht. apply last_snoc.
  - exact (Hrb eq_refl).
  - rewrite Hbusi.
    pose proof (logExec_preserves quiet quiet_refl quiet_trans set_faults_quiet
                  set_txn_quiet exec_quiet tx _ _ _ _ Hu) as [Hq _].
    exact Hq.
Qed.

(** *** Two calls in a row *)

Lemma logExec_healthy tx st w rows :
  faults w = [] -> txn w = Some rows ->
  exists w', logExec tx st w = (Return (mkResult (snd (run_stmt st rows)), None), w') /\
    faults w' = [] /\ txn w' = Some (fst (run_stmt st rows)) /\
    busi w' = busi w /\ barrier w' = barrier w.
Proof.
  intros Hf Ht. unfold logExec, logrus_Printf, tx_Exec, bind, modify, next_fault, ret. simpl.
  rewrite Hf. simpl. rewrite Ht. destruct (run_stmt st rows) as [rows' n]. simpl.
  eexists. split; [reflexivity|]. simpl. auto.
Qed.

Lemma same_slot_set_result g b bt sval r :
  same_slot g b bt (set_result sval r) = same_slot g b bt r.
Proof. reflexivity. Qed.

Lemma slot_taken_app g b bt rows1 rows2 :
  slot_taken g b bt (rows1 ++ rows2) = slot_taken g b bt rows1 || slot_taken g b bt rows2.
Proof. apply existsb_app. Qed.

(** A slot that is taken stays taken, whatever statement runs. *)
Lemma slot_taken_kept g b bt st rows :
  slot_taken g b bt rows = true -> slot_taken g b bt (fst (run_stmt st rows)) = true.
Proof.
  intros Htaken. destruct st as [ty' g' b' bt' reason | sval ty' g' b' bt'].
  - rewrite run_insert. destruct (slot_taken g' b' bt' rows); simpl; [exact Htaken|].
    rewrite slot_taken_app, Htaken. reflexivity.
  - unfold run_stmt, slot_taken in *. simpl. induction rows as [|r rows IH]; [discriminate|].
    simpl in Htaken |- *. apply orb_true_iff in Htaken as [Hr | Hrows].
    + destruct (update_matches ty' g' b' bt' r); [rewrite same_slot_set_result|];
        rewrite Hr; reflexivity.
    + rewrite (IH Hrows). apply orb_true_r.
Qed.

Lemma find_own_taken rows r :
  List.find (select_matches (TransType ti) (Gid ti) (BranchID ti) (BranchType ti) (BranchType ti))
            rows = Some r ->
  slot_taken (Gid ti) (BranchID ti) (BranchType ti) rows = true.
Proof.
  intros Hfind. apply find_some in Hfind as [Hin Hm].
  apply existsb_exists. exists r. split; [exact Hin|].
  unfold select_matches in Hm. apply andb_true_iff in Hm as [Hm _].
  apply andb_true_iff in Hm as [_ Hm]. exact Hm.
Qed.

(** A claim of a slot that is taken, on a store that answers. *)
Lemma claim_taken tx ty g b bt reason w rows :
  faults w = [] -> txn w = Some rows ->
  bt = "" \/ slot_taken g b bt rows = true ->
  exists w', insertBarrier tx ty g b bt reason w = (Return (0, None), w') /\
    faults w' = [] /\ txn w' = Some rows.
Proof.
  intros Hf Ht Htaken.
  destruct (insertBarrier_healthy tx ty g b bt reason w rows Hf Ht) as (w' & Hi & Hf' & Ht').
  exists w'. unfold claim_rows in Hi, Ht'. rewrite run_insert in Hi, Ht'.
  destruct (bool_decide (bt = "")) eqn:Hbt; [auto|].
  destruct Htaken as [Hempty | Htk].
  - apply bool_decide_eq_false in Hbt. contradiction.
  - rewrite Htk in Hi, Ht'. auto.
Qed.

Lemma compensating_origin_named :
  compensating (BranchType ti) = true -> originTypeOf (BranchType ti) <> "".
Proof.
  intros [-> | ->]%compensating_iff; discriminate.
Qed.

(** X8: replay from the table.  On a store that answers, when the
    committed table has a row for the own slot under the call's own reason
    with a stored payload (and, for a cancel or compensate, the forward slot
    is taken), the call does not invoke the callback and returns what
    line 122 makes of the payload: the error result of [json.Unmarshal] as
    its value, with a nil error. *)
Theorem replay_on_completed_slot wr r payload :
  faults wr = [] ->
  List.find (select_matches (TransType ti) (Gid ti) (BranchID ti) (BranchType ti) (BranchType ti))
            (barrier wr) = Some r ->
  row_result r = Some payload ->
  (compensating (BranchType ti) = true ->
   slot_taken (Gid ti) (BranchID ti) (originTypeOf (BranchType ti)) (barrier wr) = true) ->
  exists wr',
    ThroughBarrierCall db ti busiCall wr
      = (Return (Any_of_error (snd (json_Unmarshal payload Nil)), None), wr') /\
    quiet wr wr'.
Proof.
  intros Hf Hfind Hres Horigin.
  destruct (BeginTx_cases wr) as (w1 & _ & _ & _ & [(e & He & _) | (Hb & Htx & Hf1 & _)]).
  { rewrite Hf in He. discriminate. }
  rewrite Hf in Hf1. simpl in Hf1.
  destruct (claim_taken (mkTx db) (TransType ti) (Gid ti) (BranchID ti)
              (originTypeOf (BranchType ti)) (BranchType ti) w1 _ Hf1 Htx)
    as (w2 & H1 & Hf2 & Htx2).
  { destruct (compensating (BranchType ti)) eqn:Hc; [right; auto|].
    left. unfold compensating in Hc. apply orb_false_iff in Hc as [Hc Hk].
    apply bool_decide_eq_false in Hc. apply bool_decide_eq_false in Hk.
    exact (originTypeOf_forward _ Hc Hk). }
  destruct (claim_taken (mkTx db) (TransType ti) (Gid ti) (BranchID ti)
              (BranchType ti) (BranchType ti) w2 _ Hf2 Htx2
              (or_intror (find_own_taken _ _ Hfind)))
    as (w3 & H2 & Hf3 & Htx3).
  destruct (logQueryRow_healthy (mkTx db)
              (SelectResult (TransType ti) (Gid ti) (BranchID ti) (BranchType ti) (BranchType ti))
              w3 (barrier wr)) as (w4 & Hq & _); [rewrite Hf3; reflexivity | exact Htx3 |].
  unfold run_query in Hq. rewrite Hfind, Hres in Hq.
  eapply ThroughBarrierCall_quiet; [exact Hb | |].
  - rewrite (barrier_steps_claims (mkTx db) w1 0 None w2 0 None w3 H1 H2).
    rewrite (barrier_decision_lookup (mkTx db) 0 None w3 _ w4 (andb_false_r _) Hq).
    simpl. destruct (json_Unmarshal payload Nil). reflexivity.
  - eapply quiet_trans; [exact (claim_origin_quiet _ _ _ _ H1)|].
    eapply quiet_trans; [exact (claim_own_quiet _ _ _ _ H2)|].
    exact (lookup_own_quiet _ _ _ _ Hq).
Qed.

Lemma own_row_matches res :
  update_matches (TransType ti) (Gid ti) (BranchID ti) (BranchType ti) (own_row ti res) = true /\
  select_matches (TransType ti) (Gid ti) (BranchID ti) (BranchType ti) (BranchType ti)
                 (own_row ti res) = true.
Proof.
  unfold update_matches, select_matches, same_slot, own_row. simpl.
  rewrite !bool_decide_eq_true_2 by reflexivity. split; reflexivity.
Qed.

Lemma update_own_row sval rows :
  slot_taken (Gid ti) (BranchID ti) (BranchType ti) rows = false ->
  List.find (select_matches (TransType ti) (Gid ti) (BranchID ti) (BranchType ti) (BranchType ti))
    (fst (run_stmt (UpdateResult sval (TransType ti) (Gid ti) (BranchID ti) (BranchType ti))
                   (rows ++ [own_row ti None])))
    = Some (own_row ti (Some sval)).
Proof.
  intros Hfree. unfold run_stmt. simpl. rewrite map_app.
  rewrite find_skip.
  - simpl. rewrite (proj1 (own_row_matches None)).
    change (set_result sval (own_row ti None)) with (own_row ti (Some sval)).
    rewrite (proj2 (own_row_matches (Some sval))). reflexivity.
  - apply slot_free_no_match. unfold slot_taken in *.
    induction rows as [|r rows IH]; [reflexivity|].
    simpl in Hfree |- *. apply orb_false_iff in Hfree as [Hr Hrows].
    rewrite (IH Hrows), orb_false_r.
    destruct (update_matches _ _ _ _ r); [rewrite same_slot_set_result|]; exact Hr.
Qed.

(** X9: a first arrival that goes through.  On a store that answers, when
    the counts lead to the callback, the callback succeeds and its result
    serializes to [sval], the call returns the callback's result with a nil
    error and commits; the committed table then holds the own slot under the
    call's own reason with [sval] as its result (so that the same call made
    again is a replay), the forward slot of a cancel or compensate is
    taken, and the business tables are as the callback left them. *)
Theorem first_arrival_completes_slot w n1 n2 res b' sval :
  faults w = [] ->
  healthy_counts ti (barrier w) = (n1, n2) ->
  compensating (BranchType ti) && (0 <? n1) = false ->
  n2 <> 0 ->
  busiCall db (busi w) = (Return (res, None), b') ->
  MustMarshalString res = Return sval ->
  exists w', ThroughBarrierCall db ti busiCall w = (Return (res, None), w') /\
    last (trace w') = Some EvCommit /\
    busi w' = b' /\
    List.find (select_matches (TransType ti) (Gid ti) (BranchID ti) (BranchType ti)
                 (BranchType ti)) (barrier w') = Some (own_row ti (Some sval)) /\
    (compensating (BranchType ti) = true ->
     slot_taken (Gid ti) (BranchID ti) (originTypeOf (BranchType ti)) (barrier w') = true).
Proof.
  intros Hf Hcounts Hn Hn2 Hcall Hm.
  destruct (BeginTx_cases w) as (w1 & _ & _ & Hbusi1 & [(e & He & _) | (Hb & Htx & Hf1 & _)]).
  { rewrite Hf in He. discriminate. }
  rewrite Hf in Hf1. simpl in Hf1.
  destruct (insertBarrier_healthy (mkTx db) (TransType ti) (Gid ti) (BranchID ti)
              (originTypeOf (BranchType ti)) (BranchType ti) w1 _ Hf1 Htx)
    as (w2 & H1 & Hf2 & Htx2).
  destruct (insertBarrier_healthy (mkTx db) (TransType ti) (Gid ti) (BranchID ti)
              (BranchType ti) (BranchType ti) w2 _ Hf2 Htx2)
    as (w3 & H2 & Hf3 & Htx3).
  unfold healthy_counts in Hcounts.
  destruct (claim_rows (TransType ti) (Gid ti) (BranchID ti) (originTypeOf (BranchType ti))
              (BranchType ti) (barrier w)) as [rows1 m1] eqn:Hc1.
  cbn [fst snd] in *.
  destruct (claim_rows (TransType ti) (Gid ti) (BranchID ti) (BranchType ti)
              (BranchType ti) rows1) as [rows2 m2] eqn:Hc2.
  cbn [fst snd] in *. injection Hcounts as -> ->.
  (* the own slot was free and is now claimed *)
  unfold claim_rows in Hc2. rewrite run_insert in Hc2.
  destruct (bool_decide (BranchType ti = "")); [injection Hc2 as _ <-; congruence|].
  destruct (slot_taken (Gid ti) (BranchID ti) (BranchType ti) rows1) eqn:Hfree;
    injection Hc2 as <- <-; [congruence|].
  fold (own_row ti None) in Htx3.
  (* the callback and the write of its result *)
  pose proof (claims_quiet _ _ _ _ _ _ _ _ _ Hb H1 H2) as [Hbusi3 _].
  rewrite <- Hbusi3 in Hcall.
  destruct (logExec_healthy (mkTx db)
              (UpdateResult sval (TransType ti) (Gid ti) (BranchID ti) (BranchType ti))
              (set_busi b' (emit EvBusiCall w3)) _ Hf3 Htx3)
    as (w5 & Hu & _ & Htx5 & Hbusi5 & _).
  assert (barrier_steps db (mkTx db) ti busiCall w1 = (Return (res, None), w5)) as Hs.
  { rewrite (barrier_steps_claims _ _ _ _ _ _ _ _ H1 H2).
    rewrite (barrier_decision_callback (mkTx db) n1 1 None w3 _ b' Hn Hn2 Hcall), Hm, Hu.
    reflexivity. }
  destruct (run_closed _ _ _ _ _ Hb Hs) as (w' & Hrun & Ht & Hbusi & _).
  assert (barrier w' = fst (run_stmt (UpdateResult sval (TransType ti) (Gid ti) (BranchID ti)
                                        (BranchType ti)) (rows1 ++ [own_row ti None]))) as Hbar.
  { rewrite <- (deferred_commits (mkTx db) res w5 _ Htx5).
    rewrite (ThroughBarrierCall_open _ _ _ _ _ Hb Hs) in Hrun. rewrite Hrun. reflexivity. }
  exists w'. split; [exact Hrun|]. split; [rewrite Ht; apply last_snoc|].
  split; [rewrite Hbusi, Hbusi5; reflexivity|]. rewrite Hbar. split.
  - exact (update_own_row sval rows1 Hfree).
  - intros Hcomp. rewrite Hcomp in Hn. simpl in Hn. apply Z.ltb_ge in Hn.
    unfold claim_rows in Hc1. rewrite run_insert in Hc1.
    rewrite (bool_decide_eq_false_2 _ (compensating_origin_named Hcomp)) in Hc1.
    destruct (slot_taken (Gid ti) (BranchID ti) (originTypeOf (BranchType ti)) (barrier w))
      eqn:Htaken; injection Hc1 as <- <-; [|lia].
    apply slot_taken_kept. rewrite slot_taken_app, Htaken. reflexivity.
Qed.

(** *** What the call leaves in the table *)

Lemma keeps_rows_refl rows : keeps_rows rows rows.
Proof. exists []. symmetry. apply app_nil_r. Qed.

Lemma keeps_rows_trans rows1 rows2 rows3 :
  keeps_rows rows1 rows2 -> keeps_rows rows2 rows3 -> keeps_rows rows1 rows3.
Proof.
  intros [x1 H1] [x2 H2]. exists (x1 ++ x2). rewrite H2, H1, app_assoc. reflexivity.
Qed.

Lemma run_stmt_keeps st rows : keeps_rows rows (fst (run_stmt st rows)).
Proof.
  destruct st as [ty g b bt reason | sval ty g b bt].
  - rewrite run_insert. destruct (slot_taken g b bt rows); simpl.
    + apply keeps_rows_refl.
    + eexists. rewrite map_app. reflexivity.
  - exists []. rewrite app_nil_r. unfold run_stmt. simpl. rewrite map_map.
    apply map_ext. intros r. destruct (update_matches ty g b bt r); reflexivity.
Qed.

Lemma grows_refl w : grows w w.
Proof. split; [apply keeps_rows_refl|]. intros rows Ht. exists rows. split; [exact Ht | apply keeps_rows_refl]. Qed.

Lemma grows_trans w1 w2 w3 : grows w1 w2 -> grows w2 w3 -> grows w1 w3.
Proof.
  intros [Hb1 Ht1] [Hb2 Ht2]. split; [eapply keeps_rows_trans; eassumption|].
  intros rows Hrows. destruct (Ht1 rows Hrows) as (rows2 & Hrows2 & Hk2).
  destruct (Ht2 rows2 Hrows2) as (rows3 & Hrows3 & Hk3).
  exists rows3. split; [exact Hrows3 | eapply keeps_rows_trans; eassumption].
Qed.

Lemma grows_same w w' : barrier w' = barrier w -> txn w' = txn w -> grows w w'.
Proof.
  intros Hb Ht. split; [rewrite Hb; apply keeps_rows_refl|].
  intros rows Hrows. exists rows. split; [congruence | apply keeps_rows_refl].
Qed.

Lemma tx_Exec_grows tx st : preserves grows (tx_Exec tx st).
Proof.
  unfold tx_Exec. frame grows_refl grows_trans ltac:(apply grows_same; reflexivity).
  intros w o w'. destruct (txn w) as [rows|] eqn:Ht.
  - pose proof (run_stmt_keeps st rows) as Hk.
    destruct (run_stmt st rows) as [rows' n]. intros [= <- <-].
    split; [apply keeps_rows_refl|]. intros rows0 Hrows0.
    assert (rows0 = rows) as -> by congruence. exists rows'. split; [reflexivity | exact Hk].
  - intros [= <- <-]. apply grows_refl.
Qed.

Lemma tx_QueryRow_grows tx q : preserves grows (tx_QueryRow tx q).
Proof.
  unfold tx_QueryRow. frame grows_refl grows_trans ltac:(apply grows_same; reflexivity).
  intros w o w'. destruct (txn w); intros [= <- <-]; apply grows_refl.
Qed.

Lemma insertBarrier_grows tx ty g b bt reason :
  preserves grows (insertBarrier tx ty g b bt reason).
Proof.
  unfold insertBarrier, logExec, logrus_Printf.
  destruct (bool_decide (bt = "")); frame grows_refl grows_trans ltac:(apply tx_Exec_grows).
Qed.

Lemma call_busi_grows : preserves grows (call_busi busiCall db).
Proof.
  unfold call_busi. apply (preserves_bind _ grows_trans).
  - apply preserves_modify. intros w. apply grows_same; reflexivity.
  - intros _ w o w'. destruct (busiCall db (busi w)) as [ob b]. intros [= <- <-].
    apply grows_same; reflexivity.
Qed.

Lemma barrier_steps_grows tx : preserves grows (barrier_steps db tx ti busiCall).
Proof.
  unfold barrier_steps, barrier_decision, logQueryRow, logExec, logrus_Printf.
  frame grows_refl grows_trans
    ltac:(first [apply insertBarrier_grows | apply tx_QueryRow_grows
                | apply call_busi_grows | apply tx_Exec_grows]).
Qed.

(** X10: whatever a call does and however it ends, the committed barrier
    table afterwards has the rows it had before, in the same order, each
    with the key, transaction type and reason it had, followed by the rows
    the call added: the barrier deletes no row and rewrites no reason; only
    results change. *)
Theorem rows_never_removed w :
  exists o w', ThroughBarrierCall db ti busiCall w = (o, w') /\
               keeps_rows (barrier w) (barrier w').
Proof.
  destruct (BeginTx_cases w) as (w1 & _ & Hbar1 & _ & [(e & _ & Hb & _) | (Hb & Htx & _)]).
  { exists (Return (Nil, Some e)), w1. split.
    - unfold ThroughBarrierCall. rewrite (bind_Return _ _ _ _ _ Hb). reflexivity.
    - rewrite Hbar1. apply keeps_rows_refl. }
  destruct (barrier_steps db (mkTx db) ti busiCall w1) as [o w2] eqn:Hs.
  destruct (barrier_steps_grows _ _ _ _ Hs) as [_ Hgrow].
  destruct (Hgrow _ Htx) as (rows' & Hrows' & Hkeep).
  destruct (run_closed _ _ _ _ _ Hb Hs) as (w' & Hrun & _ & _ & _ & Hrb).
  exists o, w'. split; [exact Hrun|].
  destruct (closing o) eqn:Hclose; try (rewrite (Hrb eq_refl); apply keeps_rows_refl);
    try (destruct o as [[? [?|]]|?]; discriminate Hclose).
  destruct o as [[res [e|]]|x]; try discriminate Hclose.
  rewrite <- (deferred_commits (mkTx db) res w2 rows' Hrows') in Hkeep.
  rewrite (ThroughBarrierCall_open _ _ _ _ _ Hb Hs) in Hrun. rewrite Hrun in Hkeep. exact Hkeep.
Qed.

(** *** Cancel before try *)

Lemma compensating_origin_differs :
  compensating (BranchType ti) = true -> originTypeOf (BranchType ti) <> BranchType ti.
Proof.
  intros [Hc | Hc]%compensating_iff; rewrite Hc; discriminate.
Qed.

(** X11: a null compensation poisons the forward slot.  On a store that
    answers, a cancel or compensate that finds the forward slot free
    returns the synthetic success with a nil error without invoking the
    callback, and commits; in the committed table the forward slot is then
    taken, and a lookup of it under any reason other than the branch type
    of this call finds no row. *)
Theorem null_compensation_poisons_forward_slot w :
  compensating (BranchType ti) = true ->
  faults w = [] ->
  slot_taken (Gid ti) (BranchID ti) (originTypeOf (BranchType ti)) (barrier w) = false ->
  exists w', ThroughBarrierCall db ti busiCall w = (Return (SUCCESS, None), w') /\
    quiet w w' /\ last (trace w') = Some EvCommit /\
    slot_taken (Gid ti) (BranchID ti) (originTypeOf (BranchType ti)) (barrier w') = true /\
    forall ty reason, reason <> BranchType ti ->
      List.find (select_matches ty (Gid ti) (BranchID ti) (originTypeOf (BranchType ti)) reason)
                (barrier w') = None.
Proof.
  intros Hc Hf Hfree.
  destruct (BeginTx_cases w) as (w1 & _ & _ & _ & [(e & He & _) | (Hb & Htx & Hf1 & _)]).
  { rewrite Hf in He. discriminate. }
  rewrite Hf in Hf1. simpl in Hf1.
  destruct (insertBarrier_healthy (mkTx db) (TransType ti) (Gid ti) (BranchID ti)
              (originTypeOf (BranchType ti)) (BranchType ti) w1 _ Hf1 Htx)
    as (w2 & H1 & Hf2 & Htx2).
  unfold claim_rows in H1, Htx2. rewrite run_insert in H1, Htx2.
  rewrite (bool_decide_eq_false_2 _ (compensating_origin_named Hc)), Hfree in H1, Htx2.
  cbn [fst snd] in H1, Htx2.
  set (poison := mkRow (TransType ti) (Gid ti) (BranchID ti) (originTypeOf (BranchType ti))
                       (BranchType ti) None) in *.
  destruct (insertBarrier_healthy (mkTx db) (TransType ti) (Gid ti) (BranchID ti)
              (BranchType ti) (BranchType ti) w2 _ Hf2 Htx2)
    as (w3 & H2 & _ & Htx3).
  assert (barrier_steps db (mkTx db) ti busiCall w1 = (Return (SUCCESS, None), w3)) as Hs.
  { rewrite (barrier_steps_claims _ _ _ _ _ _ _ _ H1 H2).
    apply barrier_decision_null_compensation; [exact Hc | lia]. }
  destruct (run_closed _ _ _ _ _ Hb Hs) as (w' & Hrun & Ht & Hbusi & _).
  assert (barrier w' = fst (claim_rows (TransType ti) (Gid ti) (BranchID ti) (BranchType ti)
                              (BranchType ti) (barrier w ++ [poison]))) as Hbar.
  { rewrite <- (deferred_commits (mkTx db) SUCCESS w3 _ Htx3).
    rewrite (ThroughBarrierCall_open _ _ _ _ _ Hb Hs) in Hrun. rewrite Hrun. reflexivity. }
  destruct (claims_quiet _ _ _ _ _ _ _ _ _ Hb H1 H2) as [Hb3 Hc3].
  exists w'. split; [exact Hrun|]. split; [|split; [rewrite Ht; apply last_snoc|]].
  { split; [congruence|]. rewrite Ht, busi_calls_closing. exact Hc3. }
  assert (slot_taken (Gid ti) (BranchID ti) (originTypeOf (BranchType ti))
            (barrier w ++ [poison]) = true) as Hpoisoned.
  { rewrite slot_taken_app. unfold slot_taken at 2. simpl. unfold poison.
    rewrite same_slot_refl. apply orb_true_r. }
  assert (forall ty reason, reason <> BranchType ti ->
            List.find (select_matches ty (Gid ti) (BranchID ti) (originTypeOf (BranchType ti)) reason)
                      (barrier w ++ [poison]) = None) as Hothers.
  { intros ty reason Hne. rewrite (find_skip _ _ _ (slot_free_no_match _ _ _ _ _ _ Hfree)).
    simpl. unfold select_matches, poison. simpl.
    rewrite (bool_decide_eq_false_2 (BranchType ti = reason)) by congruence.
    rewrite andb_false_r. reflexivity. }
  rewrite Hbar. unfold claim_rows. destruct (bool_decide (BranchType ti = "")); simpl.
  { split; assumption. }
  split; [apply slot_taken_kept; exact Hpoisoned|].
  intros ty reason Hne. rewrite run_insert.
  destruct (slot_taken (Gid ti) (BranchID ti) (BranchType ti) (barrier w ++ [poison])); simpl.
  - exact (Hothers ty reason Hne).
  - rewrite (find_skip _ _ _ (Hothers ty reason Hne)). simpl.
    unfold select_matches, same_slot. simpl.
    rewrite (bool_decide_eq_false_2 (BranchType ti = originTypeOf (BranchType ti)))
      by (intros Heq; exact (compensating_origin_differs Hc (eq_sym Heq))).
    rewrite !andb_false_r. reflexivity.
Qed.

(** X12: suspension from the table.  On a store that answers, a forward
    call (neither cancel nor compensate) whose slot is taken in the
    committed table, but not by a row under its own reason, returns the
    synthetic failure with a nil error and does not invoke the callback. *)
Theorem poisoned_slot_suspends w :
  compensating (BranchType ti) = false ->
  faults w = [] ->
  slot_taken (Gid ti) (BranchID ti) (BranchType ti) (barrier w) = true ->
  List.find (select_matches (TransType ti) (Gid ti) (BranchID ti) (BranchType ti) (BranchType ti))
            (barrier w) = None ->
  exists w', ThroughBarrierCall db ti busiCall w = (Return (FAILURE, None), w') /\ quiet w w'.
Proof.
  intros Hc Hf Htaken Hfind.
  destruct (BeginTx_cases w) as (w1 & _ & _ & _ & [(e & He & _) | (Hb & Htx & Hf1 & _)]).
  { rewrite Hf in He. discriminate. }
  rewrite Hf in Hf1. simpl in Hf1.
  assert (claim_origin ti (mkTx db) w1 = (Return (0, None), w1)) as H1.
  { unfold compensating in Hc. apply orb_false_iff in Hc as [Hc Hk].
    apply bool_decide_eq_false in Hc. apply bool_decide_eq_false in Hk.
    exact (claim_origin_forward _ _ _ Hc Hk). }
  destruct (claim_taken (mkTx db) (TransType ti) (Gid ti) (BranchID ti)
              (BranchType ti) (BranchType ti) w1 _ Hf1 Htx (or_intror Htaken))
    as (w3 & H2 & Hf3 & Htx3).
  destruct (logQueryRow_healthy (mkTx db)
              (SelectResult (TransType ti) (Gid ti) (BranchID ti) (BranchType ti) (BranchType ti))
              w3 (barrier w)) as (w4 & Hq & _); [rewrite Hf3; reflexivity | exact Htx3 |].
  unfold run_query in Hq. rewrite Hfind in Hq.
  eapply ThroughBarrierCall_quiet; [exact Hb | |].
  - rewrite (barrier_steps_claims (mkTx db) w1 0 None w1 0 None w3 H1 H2).
    rewrite (barrier_decision_lookup (mkTx db) 0 None w3 _ w4 (andb_false_r _) Hq).
    reflexivity.
  - eapply quiet_trans; [exact (claim_own_quiet _ _ _ _ H2)|].
    exact (lookup_own_quiet _ _ _ _ Hq).
Qed.

End BarrierFacts.

(** ** Runs on sample data *)

Lemma TransInfoFromReq_validates_witness :
  TransInfoFromReq request_without_gid empty_world =
    (Panicked (ErrorValue (NewError "invlid trans info: transInfo: tcc  b1 try")), empty_world) /\
  TransInfoFromReq full_request empty_world = (Return try1, empty_world).
Proof.
  split.
  - apply (proj1 (TransInfoFromReq_validates request_without_gid empty_world)).
    right; left; reflexivity.
  - apply (proj2 (TransInfoFromReq_validates full_request empty_world)); discriminate.
Defined.

Lemma origin_claim_noop_witness :
  originTypeOf "confirm" = "" /\
  insertBarrier (mkTx db0) "tcc" "g1" "b1" (originTypeOf "confirm") "confirm" empty_world
    = (Return (0, None), empty_world).
Proof. apply (origin_claim_noop (mkTx db0) confirm1 empty_world); discriminate. Defined.

Lemma suspension_returns_failure_witness :
  exists w', ThroughBarrierCall (codec := text_codec) db0 try1 busi_amount cancelled_world
               = (Return (FAILURE, None), w') /\ quiet cancelled_world w'.
Proof.
  eapply (suspension_returns_failure (codec := text_codec) db0 try1 busi_amount cancelled_world);
    [discriminate | discriminate | reflexivity | reflexivity | reflexivity | reflexivity].
Defined.

Lemma null_compensation_returns_success_witness :
  (exists w', ThroughBarrierCall (codec := text_codec) db0 cancel1 busi_amount empty_world
                = (Return (SUCCESS, None), w') /\ quiet empty_world w') /\
  (exists w', ThroughBarrierCall (codec := text_codec) db0 cancel1 busi_amount cancelled_world
                = (Return (SUCCESS, None), w') /\ quiet cancelled_world w').
Proof.
  destruct (null_compensation_returns_success (codec := text_codec) db0 cancel1 busi_amount
              (or_introl eq_refl)) as [first second].
  split.
  - eapply (first empty_world); reflexivity.
  - eapply (second cancelled_world); reflexivity.
Defined.

Lemma replay_returns_nil_witness :
  exists w', ThroughBarrierCall (codec := text_codec) db0 try1 busi_amount replay_world
               = (Return (Nil, None), w') /\ quiet replay_world w'.
Proof.
  eapply (replay_returns_nil (codec := text_codec) db0 try1 busi_amount replay_world);
    reflexivity.
Defined.

Lemma callback_runs_outside_unit_witness :
  exists o w', ThroughBarrierCall (codec := text_codec) db0 try1 busi_refuse empty_world = (o, w') /\
    arrival_outcome (codec := text_codec)
      (Return (Nil, Some (NewError "insufficient balance"))) o /\
    busi_calls (trace w') = S (busi_calls (trace empty_world)) /\
    busi w' = <["amount" := 10]> ∅ /\
    (closing o = EvRollback -> barrier w' = barrier empty_world).
Proof.
  eapply (callback_runs_outside_unit (codec := text_codec) db0 try1 busi_refuse empty_world);
    [reflexivity | reflexivity | reflexivity | reflexivity | discriminate | reflexivity].
Defined.



(** The callback books the amount and fails: the transaction of the
    barrier is rolled back, the booking is not. *)
Lemma callback_write_survives_rollback :
  ~ callback_in_unit (codec := text_codec) db0 try1 busi_refuse empty_world.
Proof.
  intros Hstated.
  specialize (Hstated _ _ eq_refl).
  assert (busi empty_world !! "amount" = Some 10) as Hamount.
  { rewrite <- Hstated; [reflexivity|]. simpl. auto 6. }
  discriminate Hamount.
Qed.

(** C7, as the code has it: the store fails on the poison claim of
    [cancel1] and answers afterwards.  The error of the poison claim is
    dropped: the own-slot claim wins, the callback runs, its result is
    stored and the transaction commits, with no error returned; the forward
    slot stays free. *)
Theorem poison_claim_error_discarded :
  exists w',
    ThroughBarrierCall (codec := text_codec) db0 cancel1 busi_amount flaky_world
      = (Return (Value (JStr "{amount:10}"), None), w') /\
    trace w' = [EvBeginTx;
                EvExec (InsertIgnore "tcc" "g1" "b1" "try" "cancel");
                EvExec (InsertIgnore "tcc" "g1" "b1" "cancel" "cancel");
                EvBusiCall;
                EvExec (UpdateResult "{amount:10}" "tcc" "g1" "b1" "cancel");
                EvCommit] /\
    barrier w' = [mkRow "tcc" "g1" "b1" "cancel" "cancel" (Some "{amount:10}")].
Proof. eexists. repeat split. Qed.

(** The sample worlds are what the barrier itself leaves behind:
    [replay_world] after a first [try1], [cancelled_world] after a
    [cancel1] that found no [try1]. *)
Example try_leaves_replay_world :
  barrier (snd (ThroughBarrierCall (codec := text_codec) db0 try1 busi_amount empty_world))
    = barrier replay_world.
Proof. reflexivity. Qed.

Example cancel_leaves_cancelled_world :
  barrier (snd (ThroughBarrierCall (codec := text_codec) db0 cancel1 busi_amount empty_world))
    = barrier cancelled_world.
Proof. reflexivity. Qed.

(** ** More runs on sample data *)

Lemma claim_then_lookup_witness :
  let w' := snd (insertBarrier (mkTx db0) "tcc" "g1" "b1" "try" "cancel" open_world) in
  (exists w'', logQueryRow (mkTx db0) (SelectResult "tcc" "g1" "b1" "try" "cancel") w'
                 = (Return (RowOf None), w'')) /\
  (exists w'', logQueryRow (mkTx db0) (SelectResult "tcc" "g1" "b1" "try" "try") w'
                 = (Return RowEmpty, w'')).
Proof.
  split.
  - apply (claim_then_lookup (mkTx db0) "tcc" "g1" "b1" "try" "cancel" "cancel" open_world None);
      reflexivity.
  - apply (claim_then_lookup (mkTx db0) "tcc" "g1" "b1" "try" "cancel" "try" open_world None);
      reflexivity.
Defined.

Lemma lookup_error_surfaced_witness :
  exists w', ThroughBarrierCall (codec := text_codec) db0 try1 busi_amount lookup_down_world
               = (Return (Nil, Some (NewError "driver: bad connection")), w') /\
    quiet lookup_down_world w' /\ last (trace w') = Some EvRollback /\
    barrier w' = barrier lookup_down_world.
Proof.
  eapply (lookup_error_surfaced (codec := text_codec) db0 try1 busi_amount lookup_down_world);
    [reflexivity | reflexivity | reflexivity | reflexivity | reflexivity | reflexivity
    | discriminate].
Defined.

Lemma own_claim_error_surfaced_witness :
  exists res e' w', ThroughBarrierCall (codec := text_codec) db0 try1 busi_amount flaky_world
                      = (Return (res, Some e'), w') /\
    quiet flaky_world w' /\ last (trace w') = Some EvRollback /\
    barrier w' = barrier flaky_world.
Proof.
  eapply (own_claim_error_surfaced (codec := text_codec) db0 try1 busi_amount flaky_world);
    reflexivity.
Defined.

Lemma callback_error_returned_witness :
  exists w', ThroughBarrierCall (codec := text_codec) db0 try1 busi_refuse empty_world
               = (Return (Nil, Some (NewError "insufficient balance")), w') /\
    trace w' = [EvBeginTx; EvExec (InsertIgnore "tcc" "g1" "b1" "try" "try");
                EvBusiCall; EvRollback] /\
    barrier w' = [] /\ busi w' = <["amount" := 10]> ∅.
Proof.
  pose (w1 := snd (BeginTx db0 empty_world)).
  pose (w3 := snd (claim_own try1 (mkTx db0) w1)).
  apply (callback_error_returned (codec := text_codec) db0 try1 busi_refuse empty_world
           (mkTx db0) w1 0 None w1 1 None w3 Nil (NewError "insufficient balance")
           (<["amount" := 10]> ∅));
    [reflexivity | reflexivity | reflexivity | reflexivity | discriminate | reflexivity].
Defined.

Lemma result_write_error_surfaced_witness :
  exists w', ThroughBarrierCall (codec := text_codec) db0 try1 busi_amount write_down_world
               = (Return (Value (JStr "{amount:10}"), Some (NewError "driver: bad connection")), w') /\
    last (trace w') = Some EvRollback /\ barrier w' = [] /\ busi w' = <["amount" := 10]> ∅.
Proof.
  eapply (result_write_error_surfaced (codec := text_codec) db0 try1 busi_amount write_down_world);
    [reflexivity | reflexivity | reflexivity | reflexivity | discriminate | reflexivity
    | reflexivity | reflexivity].
Defined.

Lemma replay_on_completed_slot_witness :
  exists wr', ThroughBarrierCall (codec := text_codec) db0 try1 busi_amount replay_world
                = (Return (Nil, None), wr') /\ quiet replay_world wr'.
Proof.
  eapply (replay_on_completed_slot (codec := text_codec) db0 try1 busi_amount replay_world);
    [reflexivity | reflexivity | reflexivity | discriminate].
Defined.

Lemma first_arrival_completes_slot_witness :
  exists w', ThroughBarrierCall (codec := text_codec) db0 try1 busi_amount empty_world
               = (Return (Value (JStr "{amount:10}"), None), w') /\
    last (trace w') = Some EvCommit /\
    busi w' = <["amount" := 10]> ∅ /\
    List.find (select_matches "tcc" "g1" "b1" "try" "try") (barrier w')
      = Some (own_row try1 (Some "{amount:10}")) /\
    (compensating "try" = true -> slot_taken "g1" "b1" (originTypeOf "try") (barrier w') = true).
Proof.
  eapply (first_arrival_completes_slot (codec := text_codec) db0 try1 busi_amount empty_world 0 1);
    [reflexivity | reflexivity | reflexivity | discriminate | reflexivity | reflexivity].
Defined.

Lemma null_compensation_poisons_forward_slot_witness :
  exists w', ThroughBarrierCall (codec := text_codec) db0 cancel1 busi_amount empty_world
               = (Return (SUCCESS, None), w') /\
    quiet empty_world w' /\ last (trace w') = Some EvCommit /\
    slot_taken "g1" "b1" "try" (barrier w') = true /\
    forall ty reason, reason <> "cancel" ->
      List.find (select_matches ty "g1" "b1" "try" reason) (barrier w') = None.
Proof.
  eapply (null_compensation_poisons_forward_slot (codec := text_codec)
            db0 cancel1 busi_amount empty_world); reflexivity.
Defined.

Lemma poisoned_slot_suspends_witness :
  exists w', ThroughBarrierCall (codec := text_codec) db0 try1 busi_amount cancelled_world
               = (Return (FAILURE, None), w') /\ quiet cancelled_world w'.
Proof.
  eapply (poisoned_slot_suspends (codec := text_codec) db0 try1 busi_amount cancelled_world);
    reflexivity.
Defined.
